(** * winlog: the event-log bridge of event.go, embedded and verified

    The Go file wraps a handful of procedures of wevtapi.dll.  What the
    library does is opaque to the program, so the embedding runs every
    function against an arbitrary native layer: a state [World] and a
    function [native] that answers each procedure call.  Every call that
    leaves the program (a procedure of the library, a method of the
    consumer's callback object) is appended to a trace, which is what the
    statements about "what is passed to the native capability" talk about.

    Go values are modelled as follows.
    - [uint32], [uintptr] and the handle types are [Z]; a conversion to
      [uint32] is written out as a reduction modulo [2^32].  The handle
      types ([EventHandle], [BookmarkHandle], ...) are declared outside the
      file; they are taken to be as wide as [syscall.Handle], so that the
      conversions between them keep the value.
    - a slice is its element kind and its elements; [make] fills it with
      zeros; taking the address of element 0 of an empty slice panics.
    - [error] is [option error]: [None] is [nil].
    - a function returning [(T, error)] returns a pair.
    - a run-time panic is the outcome [Panicked]. *)

From Stdlib Require Import ZArith.
From stdpp Require Import base option list strings gmap.

Open Scope Z_scope.

Module Winlog.

(** ** Machine integers *)

Definition uint32 (z : Z) : Z := z mod 2 ^ 32.

Lemma uint32_small z : 0 ≤ z < 2 ^ 32 → uint32 z = z.
Proof. intros H. unfold uint32. by apply Z.mod_small. Qed.

Lemma uint32_range z : 0 ≤ uint32 z < 2 ^ 32.
Proof. unfold uint32. apply Z.mod_pos_bound. lia. Qed.

Lemma uint32_idemp z : uint32 (uint32 z) = uint32 z.
Proof. apply uint32_small, uint32_range. Qed.

(** ** Constants (the [iota] blocks of the interop part) *)

Definition EvtSubscribeToFutureEvents : Z := 1.
Definition EvtSubscribeStartAtOldestRecord : Z := 2.
Definition EvtSubscribeStartAfterBookmark : Z := 3.

Definition EvtSubscribeActionError : Z := 0.
Definition EvtSubscribeActionDeliver : Z := 1.

Definition EvtSystemProviderName : Z := 0.
Definition EvtSystemProviderGuid : Z := 1.
Definition EvtSystemEventID : Z := 2.
Definition EvtSystemQualifiers : Z := 3.
Definition EvtSystemLevel : Z := 4.
Definition EvtSystemTask : Z := 5.
Definition EvtSystemOpcode : Z := 6.
Definition EvtSystemKeywords : Z := 7.
Definition EvtSystemTimeCreated : Z := 8.
Definition EvtSystemEventRecordId : Z := 9.
Definition EvtSystemActivityID : Z := 10.
Definition EvtSystemRelatedActivityID : Z := 11.
Definition EvtSystemProcessID : Z := 12.
Definition EvtSystemThreadID : Z := 13.
Definition EvtSystemChannel : Z := 14.
Definition EvtSystemComputer : Z := 15.
Definition EvtSystemUserID : Z := 16.
Definition EvtSystemVersion : Z := 17.

Definition EvtFormatMessageEvent : Z := 1.
Definition EvtFormatMessageLevel : Z := 2.
Definition EvtFormatMessageTask : Z := 3.
Definition EvtFormatMessageOpcode : Z := 4.
Definition EvtFormatMessageKeyword : Z := 5.
Definition EvtFormatMessageChannel : Z := 6.
Definition EvtFormatMessageProvider : Z := 7.
Definition EvtFormatMessageId : Z := 8.
Definition EvtFormatMessageXml : Z := 9.

Definition EvtRenderEventValues : Z := 0.
Definition EvtRenderEventXml : Z := 1.
Definition EvtRenderBookmark : Z := 2.

Definition EvtRenderContextValues : Z := 0.
Definition EvtRenderContextSystem : Z := 1.
Definition EvtRenderContextUser : Z := 2.

(** The code the program compares a probe's failure with
    ([errno != 122], ERROR_INSUFFICIENT_BUFFER). *)
Definition ERROR_INSUFFICIENT_BUFFER : Z := 122.

(** ** Errors *)

Inductive error : Type :=
  | Errno (code : Z)                         (* syscall.Errno *)
  | ErrorString (msg : string)               (* any other error value *)
  | Errorf (format : string) (arg : error).  (* fmt.Errorf(format, arg) *)

#[global] Instance error_eq_dec : EqDecision error.
Proof. solve_decision. Defined.

(** ** Slices *)

Inductive ElemKind : Type := KByte | KUint16.

#[global] Instance ElemKind_eq_dec : EqDecision ElemKind.
Proof. solve_decision. Defined.

(** Size of one element, in bytes. *)
Definition elem_size (k : ElemKind) : Z :=
  match k with KByte => 1 | KUint16 => 2 end.

Record Slice : Type := MkSlice { kind : ElemKind; elems : list Z }.

#[global] Instance Slice_eq_dec : EqDecision Slice.
Proof. solve_decision. Defined.

(** [make([]T, n)] *)
Definition make (k : ElemKind) (n : Z) : Slice :=
  MkSlice k (replicate (Z.to_nat n) 0).

(** [len(s)] *)
Definition len (s : Slice) : Z := Z.of_nat (length (elems s)).

(** The memory a slice's elements take, in bytes. *)
Definition byte_size (s : Slice) : Z := elem_size (kind s) * len s.

Lemma len_make k n : 0 ≤ n → len (make k n) = n.
Proof. intros H. unfold len, make. simpl. rewrite length_replicate. lia. Qed.

Lemma byte_size_make k n : 0 ≤ n → byte_size (make k n) = elem_size k * n.
Proof. intros H. unfold byte_size. rewrite len_make by done. done. Qed.

(** What a native procedure leaves in a buffer it was given: it writes
    [data] from the start of the buffer, each element reduced to the
    buffer's element width, and never beyond the buffer's end. *)
Fixpoint overlay (old new : list Z) : list Z :=
  match old, new with
  | _ :: old', x :: new' => x :: overlay old' new'
  | _, _ => old
  end.

Definition wrap_elem (k : ElemKind) (z : Z) : Z := z mod 2 ^ (8 * elem_size k).

Definition store_slice (data : list Z) (s : Slice) : Slice :=
  MkSlice (kind s) (overlay (elems s) (wrap_elem (kind s) <$> data)).

Lemma length_overlay old new : length (overlay old new) = length old.
Proof.
  revert new. induction old as [|o old IH]; intros [|x new]; simpl; auto.
Qed.

Lemma len_store_slice data s : len (store_slice data s) = len s.
Proof. unfold len, store_slice. simpl. by rewrite length_overlay. Qed.

Lemma kind_store_slice data s : kind (store_slice data s) = kind s.
Proof. done. Qed.

(** ** Outcomes and the execution monad *)

Inductive Outcome (A : Type) : Type :=
  | Returned (a : A)
  | Panicked (msg : string).
Arguments Returned {A} a.
Arguments Panicked {A} msg.

(** A computation over a state [S] that returns or panics. *)
Definition Exec (S A : Type) : Type := S → Outcome A * S.

#[global] Instance Exec_ret {S} : MRet (Exec S) := λ A a s, (Returned a, s).

#[global] Instance Exec_bind {S} : MBind (Exec S) := λ A B k m s,
  match m s with
  | (Returned a, s') => k a s'
  | (Panicked msg, s') => (Panicked msg, s')
  end.

Definition panic {S A} (msg : string) : Exec S A := λ s, (Panicked msg, s).

Lemma Exec_bind_returned {S A B} (m : Exec S A) (k : A → Exec S B) s a s' :
  m s = (Returned a, s') → (m ≫= k) s = k a s'.
Proof. intros H. unfold mbind, Exec_bind. by rewrite H. Qed.

Lemma Exec_bind_panicked {S A B} (m : Exec S A) (k : A → Exec S B) s msg s' :
  m s = (Panicked msg, s') → (m ≫= k) s = (Panicked msg, s').
Proof. intros H. unfold mbind, Exec_bind. by rewrite H. Qed.

(** [&s[0]]: the address of the first element; the pointer is modelled by
    the slice it points into. *)
Definition addr0 {S} (s : Slice) : Exec S Slice :=
  match elems s with
  | [] => panic "index out of range [0] with length 0"
  | _ :: _ => mret s
  end.

(** ** The subscription context and what leaves the program *)

(** [LogEventCallbackWrapper]: declared outside the file; the file reads
    its fields [callback] (an object with the methods [PublishError] and
    [PublishEvent], named here by an identifier) and [subscribedChannel]. *)
Record LogEventCallbackWrapper : Type := MkWrapper {
  callback : Z;
  subscribedChannel : string
}.

#[global] Instance LogEventCallbackWrapper_eq_dec : EqDecision LogEventCallbackWrapper.
Proof. solve_decision. Defined.

(** [syscall.NewCallback(newEventCallback(watcher))]: the native entry
    point made from the closure that captured [watcher]. *)
Inductive Trampoline : Type := NewCallback (context : LogEventCallbackWrapper).

#[global] Instance Trampoline_eq_dec : EqDecision Trampoline.
Proof. solve_decision. Defined.

(** One entry per call that leaves the program, with the arguments as
    passed.  A buffer pointer is [None] for [nil]. *)
Inductive Event : Type :=
  | CallEvtRender (Context Fragment Flags BufferSize : Z) (Buffer : option Slice)
  | CallEvtFormatMessage (PublisherMetadata Event MessageId ValueCount : Z)
      (Values : option Slice) (Flags BufferSize : Z) (Buffer : option Slice)
  | CallEvtSubscribe (Session SignalEvent : Z) (ChannelPath Query : list Z)
      (Bookmark context : Z) (Callback : Trampoline) (Flags : Z)
  | CallEvtOpenPublisherMetadata (Session : Z) (PublisherIdentity : list Z)
      (LogFilePath : option (list Z)) (Locale Flags : Z)
  | CallPublishError (sink : Z) (err : error)
  | CallPublishEvent (sink : Z) (handle : Z) (channel : string).

#[global] Instance Event_eq_dec : EqDecision Event.
Proof. solve_decision. Defined.

(** What a procedure call gives back: [r1] and [lastErr] of
    [LazyProc.Call], and what it wrote through the pointers it was given
    ([None]: the variable was left as it was). *)
Record Reply : Type := MkReply {
  r1 : Z;
  lastErr : Z;
  out_used : option Z;
  out_count : option Z;
  out_data : list Z
}.

(** ** The program, against an arbitrary native layer *)

Section Program.

(** The native layer: its state, and its answer to each call. *)
Context {World : Type}.
Variable native : World → Event → Reply * World.

(** The Go library's [syscall.UTF16PtrFromString] (the pointer is
    modelled by the code units it points to) and [syscall.UTF16ToString]. *)
Variable UTF16PtrFromString : string → error + list Z.
Variable UTF16ToString : list Z → string.

(** [EvtVariant], [NewEvtVariant] and the accessor [String] are declared
    outside the file. *)
Context {EvtVariant : Type}.
Variable NewEvtVariant : Slice → EvtVariant.
Variable EvtVariant_String : EvtVariant → Z → string * option error.

Record St : Type := MkSt { world : World; trace : list Event }.

Local Abbreviation M := (Exec St).

(** [proc.Call(args...)]: the call is recorded, the native layer answers. *)
Definition Call (e : Event) : M Reply := λ st,
  let '(r, w) := native (world st) e in
  (Returned r, MkSt w (trace st ++ [e])).

(** A method call on the consumer's callback object: recorded; it
    returns nothing. *)
Definition invoke (e : Event) : M unit := λ st,
  (Returned (), MkSt (world st) (trace st ++ [e])).

(** A [*uint32] argument after the call: what the procedure wrote, or the
    old value. *)
Definition written (old : Z) (out : option Z) : Z :=
  default old (uint32 <$> out).

(** *** The interop wrappers

    Each wrapper returns [err] when [r1 == 0] and [nil] otherwise.  The
    variables behind pointer arguments are passed in and come back with
    the result. *)

Definition EvtRender (Context Fragment Flags BufferSize : Z)
    (Buffer : option Slice) (BufferUsed PropertyCount : Z)
  : M (option error * option Slice * Z * Z) :=
  r ← Call (CallEvtRender Context Fragment Flags BufferSize Buffer);
  let Buffer' := store_slice (out_data r) <$> Buffer in
  let BufferUsed' := written BufferUsed (out_used r) in
  let PropertyCount' := written PropertyCount (out_count r) in
  if decide (r1 r = 0)
  then mret (Some (Errno (lastErr r)), Buffer', BufferUsed', PropertyCount')
  else mret (None, Buffer', BufferUsed', PropertyCount').

Definition EvtFormatMessage (PublisherMetadata Event MessageId ValueCount : Z)
    (Values : option Slice) (Flags BufferSize : Z)
    (Buffer : option Slice) (BufferUsed : Z)
  : M (option error * option Slice * Z) :=
  r ← Call (CallEvtFormatMessage PublisherMetadata Event MessageId ValueCount
              Values Flags BufferSize Buffer);
  let Buffer' := store_slice (out_data r) <$> Buffer in
  let BufferUsed' := written BufferUsed (out_used r) in
  if decide (r1 r = 0)
  then mret (Some (Errno (lastErr r)), Buffer', BufferUsed')
  else mret (None, Buffer', BufferUsed').

Definition EvtSubscribe (Session SignalEvent : Z) (ChannelPath Query : list Z)
    (Bookmark context : Z) (Callback : Trampoline) (Flags : Z)
  : M (Z * option error) :=
  r ← Call (CallEvtSubscribe Session SignalEvent ChannelPath Query
              Bookmark context Callback Flags);
  if decide (r1 r = 0)
  then mret (0, Some (Errno (lastErr r)))
  else mret (r1 r, None).

Definition EvtOpenPublisherMetadata (Session : Z) (PublisherIdentity : list Z)
    (LogFilePath : option (list Z)) (Locale Flags : Z)
  : M (Z * option error) :=
  r ← Call (CallEvtOpenPublisherMetadata Session PublisherIdentity
              LogFilePath Locale Flags);
  if decide (r1 r = 0)
  then mret (0, Some (Errno (lastErr r)))
  else mret (r1 r, None).

(** *** newEventCallback *)

Definition newEventCallback (context : LogEventCallbackWrapper)
    (action : Z) (_ : Z) (handle : Z) : M Z :=
  (if decide (action = EvtSubscribeActionError)
   then
     let err := Errno handle in
     invoke (CallPublishError (callback context)
               (Errorf "Event log callback got error: %v" err))
   else
     invoke (CallPublishEvent (callback context) handle
               (subscribedChannel context)));;
  mret 0.

(** The native layer entering a registered callback. *)
Definition enter (t : Trampoline) (action ctx handle : Z) : M Z :=
  match t with NewCallback context => newEventCallback context action ctx handle end.

(** *** CreateListener, CreateListenerFromBookmark *)

Definition CreateListener (channel query : string) (startpos : Z)
    (watcher : LogEventCallbackWrapper) : M (Z * option error) :=
  match UTF16PtrFromString channel with
  | inl err => mret (0, Some err)
  | inr wideChan =>
    match UTF16PtrFromString query with
    | inl err => mret (0, Some err)
    | inr wideQuery =>
      '(listenerHandle, err) ← EvtSubscribe 0 0 wideChan wideQuery 0 0
          (NewCallback watcher) (uint32 startpos);
      match err with
      | Some e => mret (0, Some e)
      | None => mret (listenerHandle, None)
      end
    end
  end.

Definition CreateListenerFromBookmark (channel query : string)
    (watcher : LogEventCallbackWrapper) (bookmarkHandle : Z)
  : M (Z * option error) :=
  match UTF16PtrFromString channel with
  | inl err => mret (0, Some err)
  | inr wideChan =>
    match UTF16PtrFromString query with
    | inl err => mret (0, Some err)
    | inr wideQuery =>
      '(listenerHandle, err) ← EvtSubscribe 0 0 wideChan wideQuery
          bookmarkHandle 0 (NewCallback watcher)
          (uint32 EvtSubscribeStartAfterBookmark);
      match err with
      | Some e => mret (0, Some e)
      | None => mret (listenerHandle, None)
      end
    end
  end.

(** *** FormatMessage *)

(** [errno, ok := err.(syscall.Errno); !ok || errno != 122] *)
Definition not_insufficient_buffer (err : error) : bool :=
  match err with
  | Errno errno => bool_decide (errno ≠ ERROR_INSUFFICIENT_BUFFER)
  | _ => true
  end.

Definition FormatMessage (eventPublisherHandle eventHandle format : Z)
  : M (string * option error) :=
  let size := 0 in
  '(err, _, size) ← EvtFormatMessage eventPublisherHandle eventHandle 0 0 None
      (uint32 format) 0 None size;
  if (match err with Some e => not_insufficient_buffer e | None => false end)
  then mret (""%string, err)
  else
    let buf := make KUint16 size in
    p ← addr0 buf;
    '(err, buf', size) ← EvtFormatMessage eventPublisherHandle eventHandle 0 0 None
        (uint32 format) (uint32 (len buf)) (Some p) size;
    match err with
    | Some e => mret (""%string, Some e)
    | None => mret (UTF16ToString (elems (default buf buf')), None)
    end.

(** *** RenderEventValues, RenderEventXML *)

Definition RenderEventValues (renderContext eventHandle : Z)
  : M (option EvtVariant * option error) :=
  let bufferUsed := 0 in
  let propertyCount := 0 in
  '(err, _, bufferUsed, propertyCount) ←
      EvtRender renderContext eventHandle EvtRenderEventValues 0 None
        bufferUsed propertyCount;
  if decide (bufferUsed = 0) then mret (None, err) else
  let buffer := make KByte bufferUsed in
  let bufSize := bufferUsed in
  p ← addr0 buffer;
  '(err, buffer', bufferUsed, propertyCount) ←
      EvtRender renderContext eventHandle EvtRenderEventValues bufSize (Some p)
        bufferUsed propertyCount;
  match err with
  | Some e => mret (None, Some e)
  | None => mret (Some (NewEvtVariant (default buffer buffer')), None)
  end.

(** The [[]byte] result is modelled by the string that holds its bytes;
    [None] is the [nil] slice. *)
Definition RenderEventXML (eventHandle : Z) : M (option string * option error) :=
  let bufferUsed := 0 in
  let propertyCount := 0 in
  '(err, _, bufferUsed, propertyCount) ←
      EvtRender 0 eventHandle EvtRenderEventXml 0 None bufferUsed propertyCount;
  if decide (bufferUsed = 0) then mret (None, err) else
  let buffer := make KUint16 bufferUsed in
  let bufSize := bufferUsed in
  p ← addr0 buffer;
  '(err, buffer', bufferUsed, propertyCount) ←
      EvtRender 0 eventHandle EvtRenderEventXml bufSize (Some p)
        bufferUsed propertyCount;
  match err with
  | Some e => mret (None, Some e)
  | None => mret (Some (UTF16ToString (elems (default buffer buffer'))), None)
  end.

(** *** GetEventPublisherHandle *)

Definition GetEventPublisherHandle (renderedFields : EvtVariant)
  : M (Z * option error) :=
  let '(publisher, err) := EvtVariant_String renderedFields EvtSystemProviderName in
  match err with
  | Some e => mret (0, Some e)
  | None =>
    match UTF16PtrFromString publisher with
    | inl e => mret (0, Some e)
    | inr widePublisher =>
      '(handle, err) ← EvtOpenPublisherMetadata 0 widePublisher None 0 0;
      match err with
      | Some e => mret (0, Some e)
      | None => mret (handle, None)
      end
    end
  end.

(** ** Running the program: one step at a time *)

(** The native layer's answer to [e] in state [st], and the state after
    the call. *)
Definition reply (st : St) (e : Event) : Reply := (native (world st) e).1.
Definition after (st : St) (e : Event) : St :=
  MkSt (native (world st) e).2 (trace st ++ [e]).

(** The error a wrapper makes of an answer. *)
Definition wrapper_err (r : Reply) : option error :=
  if decide (r1 r = 0) then Some (Errno (lastErr r)) else None.

(** The size a probe reports: what it wrote to the size variable, which
    the program had set to [0]. *)
Definition reported (st : St) (probe : Event) : Z :=
  written 0 (out_used (reply st probe)).

Lemma Call_run e st : Call e st = (Returned (reply st e), after st e).
Proof. unfold Call, reply, after. by destruct (native (world st) e). Qed.

Lemma trace_after st e : trace (after st e) = trace st ++ [e].
Proof. done. Qed.

Lemma written_range old out : 0 ≤ old < 2 ^ 32 → 0 ≤ written old out < 2 ^ 32.
Proof.
  intros H. unfold written. destruct out as [v|]; simpl; [apply uint32_range | done].
Qed.

Lemma reported_range st probe : 0 ≤ reported st probe < 2 ^ 32.
Proof. apply written_range. lia. Qed.

Lemma addr0_make k n (st : St) :
  0 < n → addr0 (make k n) st = (Returned (make k n), st).
Proof.
  intros H. unfold addr0, make. simpl.
  destruct (Z.to_nat n) as [|m] eqn:E; [lia | done].
Qed.

Lemma addr0_make_0 k (st : St) :
  addr0 (make k 0) st = (Panicked "index out of range [0] with length 0", st).
Proof. done. Qed.

Lemma EvtRender_run c f fl sz buf used cnt st :
  let e := CallEvtRender c f fl sz buf in
  EvtRender c f fl sz buf used cnt st =
    (Returned (wrapper_err (reply st e),
               store_slice (out_data (reply st e)) <$> buf,
               written used (out_used (reply st e)),
               written cnt (out_count (reply st e))),
     after st e).
Proof.
  intros e. unfold EvtRender. rewrite (Exec_bind_returned _ _ _ _ _ (Call_run _ _)).
  fold e. unfold wrapper_err. by destruct (decide _).
Qed.

Lemma EvtFormatMessage_run p ev mid vc vals fl sz buf used st :
  let e := CallEvtFormatMessage p ev mid vc vals fl sz buf in
  EvtFormatMessage p ev mid vc vals fl sz buf used st =
    (Returned (wrapper_err (reply st e),
               store_slice (out_data (reply st e)) <$> buf,
               written used (out_used (reply st e))),
     after st e).
Proof.
  intros e. unfold EvtFormatMessage.
  rewrite (Exec_bind_returned _ _ _ _ _ (Call_run _ _)).
  fold e. unfold wrapper_err. by destruct (decide _).
Qed.

Lemma EvtSubscribe_run s sig ch q bm ctx cb fl st :
  let e := CallEvtSubscribe s sig ch q bm ctx cb fl in
  EvtSubscribe s sig ch q bm ctx cb fl st =
    (Returned (if decide (r1 (reply st e) = 0)
               then (0, Some (Errno (lastErr (reply st e))))
               else (r1 (reply st e), None)),
     after st e).
Proof.
  intros e. unfold EvtSubscribe.
  rewrite (Exec_bind_returned _ _ _ _ _ (Call_run _ _)).
  fold e. by destruct (decide _).
Qed.

Lemma EvtOpenPublisherMetadata_run s id path loc fl st :
  let e := CallEvtOpenPublisherMetadata s id path loc fl in
  EvtOpenPublisherMetadata s id path loc fl st =
    (Returned (if decide (r1 (reply st e) = 0)
               then (0, Some (Errno (lastErr (reply st e))))
               else (r1 (reply st e), None)),
     after st e).
Proof.
  intros e. unfold EvtOpenPublisherMetadata.
  rewrite (Exec_bind_returned _ _ _ _ _ (Call_run _ _)).
  fold e. by destruct (decide _).
Qed.

(** *** The two calls of a decode *)

Definition render_probe (c h flags : Z) : Event :=
  CallEvtRender c h flags 0 None.
Definition render_retry (k : ElemKind) (c h flags n : Z) : Event :=
  CallEvtRender c h flags n (Some (make k n)).
Definition format_probe (p h format : Z) : Event :=
  CallEvtFormatMessage p h 0 0 None (uint32 format) 0 None.
Definition format_retry (p h format n : Z) : Event :=
  CallEvtFormatMessage p h 0 0 None (uint32 format) n (Some (make KUint16 n)).

(** What [RenderEventValues] does, by the size the probe reports. *)
Lemma RenderEventValues_run c h st :
  let probe := render_probe c h EvtRenderEventValues in
  let n := reported st probe in
  let st1 := after st probe in
  let retry := render_retry KByte c h EvtRenderEventValues n in
  RenderEventValues c h st =
    if decide (n = 0)
    then (Returned (None, wrapper_err (reply st probe)), st1)
    else (Returned
            match wrapper_err (reply st1 retry) with
            | Some e => (None, Some e)
            | None => (Some (NewEvtVariant
                        (store_slice (out_data (reply st1 retry)) (make KByte n))),
                       None)
            end,
          after st1 retry).
Proof.
  cbv zeta. unfold RenderEventValues, reported, render_probe, render_retry.
  rewrite (Exec_bind_returned _ _ _ _ _ (EvtRender_run _ _ _ _ _ _ _ _)).
  set (probe := CallEvtRender _ _ _ _ _).
  pose proof (written_range 0 (out_used (reply st probe)) ltac:(lia)) as Hr.
  destruct (decide (written 0 _ = 0)) as [Hn|Hn]; [done|].
  assert (0 < written 0 (out_used (reply st probe))) as Hpos by lia.
  rewrite (Exec_bind_returned _ _ _ _ _ (addr0_make _ _ _ Hpos)).
  rewrite (Exec_bind_returned _ _ _ _ _ (EvtRender_run _ _ _ _ _ _ _ _)).
  simpl. by destruct (wrapper_err _).
Qed.

(** What [RenderEventXML] does, by the size the probe reports. *)
Lemma RenderEventXML_run h st :
  let probe := render_probe 0 h EvtRenderEventXml in
  let n := reported st probe in
  let st1 := after st probe in
  let retry := render_retry KUint16 0 h EvtRenderEventXml n in
  RenderEventXML h st =
    if decide (n = 0)
    then (Returned (None, wrapper_err (reply st probe)), st1)
    else (Returned
            match wrapper_err (reply st1 retry) with
            | Some e => (None, Some e)
            | None => (Some (UTF16ToString (elems
                        (store_slice (out_data (reply st1 retry)) (make KUint16 n)))),
                       None)
            end,
          after st1 retry).
Proof.
  cbv zeta. unfold RenderEventXML, reported, render_probe, render_retry.
  rewrite (Exec_bind_returned _ _ _ _ _ (EvtRender_run _ _ _ _ _ _ _ _)).
  set (probe := CallEvtRender _ _ _ _ _).
  pose proof (written_range 0 (out_used (reply st probe)) ltac:(lia)) as Hr.
  destruct (decide (written 0 _ = 0)) as [Hn|Hn]; [done|].
  assert (0 < written 0 (out_used (reply st probe))) as Hpos by lia.
  rewrite (Exec_bind_returned _ _ _ _ _ (addr0_make _ _ _ Hpos)).
  rewrite (Exec_bind_returned _ _ _ _ _ (EvtRender_run _ _ _ _ _ _ _ _)).
  simpl. by destruct (wrapper_err _).
Qed.

(** The probe failed with something else than error 122: the test
    [!ok || errno != 122] under [err != nil]. *)
Definition probe_fatal (r : Reply) : bool :=
  match wrapper_err r with
  | Some e => not_insufficient_buffer e
  | None => false
  end.


(** What [FormatMessage] does, by the probe's answer. *)
Lemma FormatMessage_run p h f st :
  let probe := format_probe p h f in
  let n := reported st probe in
  let st1 := after st probe in
  let retry := format_retry p h f n in
  FormatMessage p h f st =
    if probe_fatal (reply st probe)
    then (Returned (""%string, wrapper_err (reply st probe)), st1)
    else if decide (n = 0)
    then (Panicked "index out of range [0] with length 0", st1)
    else (Returned
            match wrapper_err (reply st1 retry) with
            | Some e => (""%string, Some e)
            | None => (UTF16ToString (elems
                        (store_slice (out_data (reply st1 retry)) (make KUint16 n))),
                       None)
            end,
          after st1 retry).
Proof.
  cbv zeta. unfold FormatMessage, reported, format_probe, format_retry, probe_fatal.
  rewrite (Exec_bind_returned _ _ _ _ _ (EvtFormatMessage_run _ _ _ _ _ _ _ _ _ _)).
  set (probe := CallEvtFormatMessage _ _ _ _ _ _ _ _).
  pose proof (written_range 0 (out_used (reply st probe)) ltac:(lia)) as Hr.
  destruct (match wrapper_err (reply st probe) with
            | Some e => not_insufficient_buffer e | None => false end); [done|].
  destruct (decide (written 0 _ = 0)) as [Hn|Hn].
  - rewrite Hn. by rewrite (Exec_bind_panicked _ _ _ _ _ (addr0_make_0 _ _)).
  - assert (0 < written 0 (out_used (reply st probe))) as Hpos by lia.
    rewrite (Exec_bind_returned _ _ _ _ _ (addr0_make _ _ _ Hpos)).
    rewrite len_make by lia.
    rewrite (uint32_small (written 0 (out_used (reply st probe)))) by lia.
    rewrite (Exec_bind_returned _ _ _ _ _ (EvtFormatMessage_run _ _ _ _ _ _ _ _ _ _)).
    simpl. by destruct (wrapper_err _).
Qed.

(** *** The callback and the subscriptions *)

Lemma newEventCallback_run context action ctx handle st :
  newEventCallback context action ctx handle st =
    (Returned 0,
     MkSt (world st)
       (trace st ++
          [if decide (action = EvtSubscribeActionError)
           then CallPublishError (callback context)
                  (Errorf "Event log callback got error: %v" (Errno handle))
           else CallPublishEvent (callback context) handle
                  (subscribedChannel context)])).
Proof.
  unfold newEventCallback. by destruct (decide _).
Qed.

(** The result the listeners make of [EvtSubscribe]'s answer. *)
Definition listener_result (r : Reply) : Z * option error :=
  if decide (r1 r = 0) then (0, Some (Errno (lastErr r))) else (r1 r, None).

Lemma CreateListener_run channel query startpos watcher st :
  CreateListener channel query startpos watcher st =
    match UTF16PtrFromString channel, UTF16PtrFromString query with
    | inl err, _ => (Returned (0, Some err), st)
    | inr _, inl err => (Returned (0, Some err), st)
    | inr wideChan, inr wideQuery =>
      let e := CallEvtSubscribe 0 0 wideChan wideQuery 0 0
                 (NewCallback watcher) (uint32 startpos) in
      (Returned (listener_result (reply st e)), after st e)
    end.
Proof.
  unfold CreateListener.
  destruct (UTF16PtrFromString channel) as [e1|wc]; [done|].
  destruct (UTF16PtrFromString query) as [e2|wq]; [done|].
  rewrite (Exec_bind_returned _ _ _ _ _ (EvtSubscribe_run _ _ _ _ _ _ _ _ _)).
  cbv zeta. unfold listener_result. by destruct (decide _).
Qed.

Lemma CreateListenerFromBookmark_run channel query watcher bookmarkHandle st :
  CreateListenerFromBookmark channel query watcher bookmarkHandle st =
    match UTF16PtrFromString channel, UTF16PtrFromString query with
    | inl err, _ => (Returned (0, Some err), st)
    | inr _, inl err => (Returned (0, Some err), st)
    | inr wideChan, inr wideQuery =>
      let e := CallEvtSubscribe 0 0 wideChan wideQuery bookmarkHandle 0
                 (NewCallback watcher) 3 in
      (Returned (listener_result (reply st e)), after st e)
    end.
Proof.
  unfold CreateListenerFromBookmark.
  destruct (UTF16PtrFromString channel) as [e1|wc]; [done|].
  destruct (UTF16PtrFromString query) as [e2|wq]; [done|].
  rewrite (Exec_bind_returned _ _ _ _ _ (EvtSubscribe_run _ _ _ _ _ _ _ _ _)).
  cbv zeta. unfold listener_result.
  change (uint32 EvtSubscribeStartAfterBookmark) with 3.
  by destruct (decide _).
Qed.

Lemma GetEventPublisherHandle_run renderedFields st :
  GetEventPublisherHandle renderedFields st =
    match EvtVariant_String renderedFields EvtSystemProviderName with
    | (_, Some e) => (Returned (0, Some e), st)
    | (publisher, None) =>
      match UTF16PtrFromString publisher with
      | inl e => (Returned (0, Some e), st)
      | inr widePublisher =>
        let e := CallEvtOpenPublisherMetadata 0 widePublisher None 0 0 in
        (Returned (listener_result (reply st e)), after st e)
      end
    end.
Proof.
  unfold GetEventPublisherHandle.
  destruct (EvtVariant_String _ _) as [publisher [e|]]; [done|].
  destruct (UTF16PtrFromString publisher) as [e|wide]; [done|].
  rewrite (Exec_bind_returned _ _ _ _ _ (EvtOpenPublisherMetadata_run _ _ _ _ _ _)).
  cbv zeta. unfold listener_result. by destruct (decide _).
Qed.

(** ** What reaches the consumer *)

(** The errors and the records a trace hands to callback objects, in
    order: the arguments of the [PublishError] and [PublishEvent] calls. *)
Definition published_errors (t : list Event) : list error :=
  omap (λ e, match e with CallPublishError _ err => Some err | _ => None end) t.

Definition published_events (t : list Event) : list (Z * string) :=
  omap (λ e, match e with CallPublishEvent _ h ch => Some (h, ch) | _ => None end) t.

Lemma published_errors_app t1 t2 :
  published_errors (t1 ++ t2) = published_errors t1 ++ published_errors t2.
Proof. apply omap_app. Qed.

Lemma published_events_app t1 t2 :
  published_events (t1 ++ t2) = published_events t1 ++ published_events t2.
Proof. apply omap_app. Qed.

(** The events a run appended to the trace it started with. *)
Definition new_events (st st' : St) : list Event :=
  drop (length (trace st)) (trace st').

Lemma new_events_app st w t : new_events st (MkSt w (trace st ++ t)) = t.
Proof. unfold new_events. simpl. by rewrite drop_app_length. Qed.

Lemma new_events_same st : new_events st st = [].
Proof. unfold new_events. by rewrite drop_all. Qed.

Lemma new_events_after st e : new_events st (after st e) = [e].
Proof. apply new_events_app. Qed.

(** ** The subscription callback *)

(** C3: the callback tells an error notification from a delivery by the
    action flag alone.  With the action [EvtSubscribeActionError] the
    handle parameter is read as an error code: [PublishError] is called
    once, with the error made from that code, and no record is published.
    With the action [EvtSubscribeActionDeliver] the handle, whatever its
    value, goes to [PublishEvent] and no error is published. *)
Theorem callback_dispatches_on_action context ctx handle st :
  let on_error := newEventCallback context EvtSubscribeActionError ctx handle st in
  let on_deliver := newEventCallback context EvtSubscribeActionDeliver ctx handle st in
  (on_error.1 = Returned 0
   ∧ new_events st on_error.2 =
       [CallPublishError (callback context)
          (Errorf "Event log callback got error: %v" (Errno handle))]
   ∧ published_errors (trace on_error.2) =
       published_errors (trace st) ++
         [Errorf "Event log callback got error: %v" (Errno handle)]
   ∧ published_events (trace on_error.2) = published_events (trace st))
  ∧ (on_deliver.1 = Returned 0
     ∧ new_events st on_deliver.2 =
         [CallPublishEvent (callback context) handle (subscribedChannel context)]
     ∧ published_errors (trace on_deliver.2) = published_errors (trace st)
     ∧ published_events (trace on_deliver.2) =
         published_events (trace st) ++ [(handle, subscribedChannel context)]).
Proof.
  cbv zeta. rewrite !newEventCallback_run. simpl.
  rewrite !new_events_app, !published_errors_app, !published_events_app.
  simpl. rewrite !app_nil_r. done.
Qed.

(** C9: for every action other than [EvtSubscribeActionError], also one
    that is not [EvtSubscribeActionDeliver], the handle goes to
    [PublishEvent] with the subscription's channel name; and the callback
    returns 0 whatever the action. *)
Theorem callback_forwards_unless_error context action ctx handle st :
  action ≠ EvtSubscribeActionError →
  newEventCallback context action ctx handle st =
    (Returned 0,
     MkSt (world st)
       (trace st ++
          [CallPublishEvent (callback context) handle (subscribedChannel context)]))
  ∧ ∀ action' ctx' handle' st',
      (newEventCallback context action' ctx' handle' st').1 = Returned 0.
Proof.
  intros Hne. split.
  - rewrite newEventCallback_run. by destruct (decide _).
  - intros. by rewrite newEventCallback_run.
Qed.

(** The native layer entering the callback a listener registered runs
    [newEventCallback] on the watcher the listener was given. *)
Lemma enter_registered watcher action ctx handle st :
  enter (NewCallback watcher) action ctx handle st =
    newEventCallback watcher action ctx handle st.
Proof. done. Qed.

(** ** Subscriptions *)


(** C5: a start position and a bookmark never go to [EvtSubscribe]
    together.  The native calls of [CreateListener] are at most one
    [EvtSubscribe], with the null bookmark handle and the caller's start
    position (converted to [uint32], which keeps the three start
    positions); those of [CreateListenerFromBookmark] are at most one
    [EvtSubscribe], with the caller's bookmark handle and the flag
    [EvtSubscribeStartAfterBookmark].  Neither subscribes when the channel
    or the query does not convert. *)
Theorem subscribe_start_xor_bookmark channel query startpos watcher bookmarkHandle st :
  new_events st (CreateListener channel query startpos watcher st).2 =
    match UTF16PtrFromString channel, UTF16PtrFromString query with
    | inr wideChan, inr wideQuery =>
        [CallEvtSubscribe 0 0 wideChan wideQuery 0 0 (NewCallback watcher)
           (uint32 startpos)]
    | _, _ => []
    end
  ∧ new_events st (CreateListenerFromBookmark channel query watcher bookmarkHandle st).2 =
    match UTF16PtrFromString channel, UTF16PtrFromString query with
    | inr wideChan, inr wideQuery =>
        [CallEvtSubscribe 0 0 wideChan wideQuery bookmarkHandle 0
           (NewCallback watcher) EvtSubscribeStartAfterBookmark]
    | _, _ => []
    end
  ∧ uint32 EvtSubscribeToFutureEvents = EvtSubscribeToFutureEvents
  ∧ uint32 EvtSubscribeStartAtOldestRecord = EvtSubscribeStartAtOldestRecord
  ∧ uint32 EvtSubscribeStartAfterBookmark = EvtSubscribeStartAfterBookmark.
Proof.
  rewrite CreateListener_run, CreateListenerFromBookmark_run.
  split_and!; try done.
  - destruct (UTF16PtrFromString channel), (UTF16PtrFromString query);
      simpl; auto using new_events_same, new_events_after.
  - destruct (UTF16PtrFromString channel), (UTF16PtrFromString query);
      simpl; auto using new_events_same, new_events_after.
Qed.

(** ** The publisher of an event *)

(** C6: [GetEventPublisherHandle] reads the field [EvtSystemProviderName]
    of the rendered values as a string.  When that fails it returns the
    zero handle and the error, and calls nothing.  When it gives a name
    that converts to UTF-16, the one native call opens the publisher
    metadata of that name, and the handle returned is that call's. *)
Theorem GetEventPublisherHandle_uses_provider_name renderedFields st :
  (∀ publisher e,
     EvtVariant_String renderedFields EvtSystemProviderName = (publisher, Some e) →
     GetEventPublisherHandle renderedFields st = (Returned (0, Some e), st)
     ∧ new_events st (GetEventPublisherHandle renderedFields st).2 = [])
  ∧ (∀ publisher widePublisher,
       EvtVariant_String renderedFields EvtSystemProviderName = (publisher, None) →
       UTF16PtrFromString publisher = inr widePublisher →
       let call := CallEvtOpenPublisherMetadata 0 widePublisher None 0 0 in
       GetEventPublisherHandle renderedFields st =
         (Returned (listener_result (reply st call)), after st call)
       ∧ new_events st (GetEventPublisherHandle renderedFields st).2 = [call]).
Proof.
  split.
  - intros publisher e Hs. rewrite GetEventPublisherHandle_run, Hs.
    split; [done | apply new_events_same].
  - intros publisher wide Hs Hw. cbv zeta.
    rewrite GetEventPublisherHandle_run, Hs, Hw. cbv zeta.
    split; [done | apply new_events_after].
Qed.

(** ** Two-phase decoding *)

(** The buffer and the buffer size a render or format call was given. *)
Definition buffer_arg (e : Event) : option (option Slice) :=
  match e with
  | CallEvtRender _ _ _ _ buf => Some buf
  | CallEvtFormatMessage _ _ _ _ _ _ _ buf => Some buf
  | _ => None
  end.

Definition buffer_size_arg (e : Event) : option Z :=
  match e with
  | CallEvtRender _ _ _ sz _ => Some sz
  | CallEvtFormatMessage _ _ _ _ _ _ sz _ => Some sz
  | _ => None
  end.


(** A decode whose probe is [probe], started in [st] and ended in [st'],
    is "two-phase with a buffer of exactly the reported size in bytes":
    the probe has buffer size 0, a second call follows, its buffer takes
    exactly as many bytes as the probe reported, and that number is its
    buffer size argument. *)
Definition two_phase_exact_bytes (probe : Event) (st st' : St) : Prop :=
  buffer_size_arg probe = Some 0
  ∧ ∃ retry b,
      new_events st st' = [probe; retry]
      ∧ buffer_arg retry = Some (Some b)
      ∧ byte_size b = reported st probe
      ∧ buffer_size_arg retry = Some (reported st probe).


Lemma new_events_after2 st e1 e2 : new_events st (after (after st e1) e2) = [e1; e2].
Proof.
  unfold after at 1. simpl. rewrite <- (assoc_L (++)). apply new_events_app.
Qed.

(** The guard of the two render functions: a probe that reports size 0
    ends the decode with the probe's error, whatever it is. *)
Lemma RenderEventValues_zero_size c h st :
  let probe := render_probe c h EvtRenderEventValues in
  reported st probe = 0 →
  RenderEventValues c h st =
    (Returned (None, wrapper_err (reply st probe)), after st probe).
Proof.
  cbv zeta. intros Hn. rewrite RenderEventValues_run. cbv zeta.
  by destruct (decide _).
Qed.

Lemma RenderEventXML_zero_size h st :
  let probe := render_probe 0 h EvtRenderEventXml in
  reported st probe = 0 →
  RenderEventXML h st =
    (Returned (None, wrapper_err (reply st probe)), after st probe).
Proof.
  cbv zeta. intros Hn. rewrite RenderEventXML_run. cbv zeta.
  by destruct (decide _).
Qed.

(** [FormatMessage] has no such guard: a probe that is not fatal and
    reports size 0 makes it take the address of element 0 of an empty slice. *)
Lemma FormatMessage_zero_size p h f st :
  let probe := format_probe p h f in
  probe_fatal (reply st probe) = false →
  reported st probe = 0 →
  FormatMessage p h f st =
    (Panicked "index out of range [0] with length 0", after st probe).
Proof.
  cbv zeta. intros Hf Hn. rewrite FormatMessage_run. cbv zeta.
  rewrite Hf. by destruct (decide _).
Qed.

(** C1 (amended): each decode first calls the native procedure with
    buffer size 0 and no buffer.  The render functions call a second time
    exactly when the probe reported a size other than 0, [FormatMessage]
    only when, besides, the probe succeeded or failed with error 122.  The
    second call passes the reported number as the buffer size and a buffer
    of exactly that many elements: bytes in [RenderEventValues], 16-bit
    units in [RenderEventXML] and [FormatMessage], whose buffers so take
    twice the reported number in bytes. *)
Theorem decode_probe_then_sized_retry c h p f st :
  (let probe := CallEvtRender c h EvtRenderEventValues 0 None in
   let n := reported st probe in
   new_events st (RenderEventValues c h st).2 =
     probe :: (if decide (n = 0) then []
               else [CallEvtRender c h EvtRenderEventValues n (Some (make KByte n))])
   ∧ len (make KByte n) = n ∧ byte_size (make KByte n) = n)
  ∧ (let probe := CallEvtRender 0 h EvtRenderEventXml 0 None in
     let n := reported st probe in
     new_events st (RenderEventXML h st).2 =
       probe :: (if decide (n = 0) then []
                 else [CallEvtRender 0 h EvtRenderEventXml n (Some (make KUint16 n))])
     ∧ len (make KUint16 n) = n ∧ byte_size (make KUint16 n) = 2 * n)
  ∧ (let probe := CallEvtFormatMessage p h 0 0 None (uint32 f) 0 None in
     let n := reported st probe in
     new_events st (FormatMessage p h f st).2 =
       probe :: (if probe_fatal (reply st probe) then []
                 else if decide (n = 0) then []
                 else [CallEvtFormatMessage p h 0 0 None (uint32 f) n
                         (Some (make KUint16 n))])
     ∧ len (make KUint16 n) = n ∧ byte_size (make KUint16 n) = 2 * n).
Proof.
  cbv zeta. split_and!.
  - rewrite RenderEventValues_run. cbv zeta. fold (render_probe c h EvtRenderEventValues).
    destruct (decide _); simpl; [apply new_events_after | apply new_events_after2].
  - apply len_make, reported_range.
  - rewrite byte_size_make by apply reported_range. simpl. lia.
  - rewrite RenderEventXML_run. cbv zeta. fold (render_probe 0 h EvtRenderEventXml).
    destruct (decide _); simpl; [apply new_events_after | apply new_events_after2].
  - apply len_make, reported_range.
  - rewrite byte_size_make by apply reported_range. done.
  - rewrite FormatMessage_run. cbv zeta. fold (format_probe p h f).
    destruct (probe_fatal _); simpl; [apply new_events_after|].
    destruct (decide _); simpl; [apply new_events_after | apply new_events_after2].
  - apply len_make, reported_range.
  - rewrite byte_size_make by apply reported_range. done.
Qed.


End Program.

(** ** A scripted native layer, for running the program *)

(** The layer answers the calls with the replies of a list, in order, and
    with a failure once the list is used up. *)
Definition scripted (w : list Reply) (e : Event) : Reply * list Reply :=
  match w with
  | r :: w' => (r, w')
  | [] => (MkReply 0 0 None None [], [])
  end.

(** The start of a run against the script [rs]. *)
Definition script (rs : list Reply) : St := MkSt rs [].

(** The code units of a string of ASCII characters. *)
Definition ascii_units (s : string) : list Z :=
  (λ c, Z.of_nat (Ascii.nat_of_ascii c)) <$> String.list_ascii_of_string s.

(** The conversions of the Go library, on ASCII text: a string with a NUL
    byte is refused, and the result ends with a NUL; back, the units up to
    the first NUL are the characters of the string. *)
Definition ascii_UTF16PtrFromString (s : string) : error + list Z :=
  if existsb (Z.eqb 0) (ascii_units s)
  then inl (ErrorString "invalid argument")
  else inr (ascii_units s ++ [0]).

Fixpoint until_nul (l : list Z) : list Z :=
  match l with
  | [] => []
  | x :: l' => if decide (x = 0) then [] else x :: until_nul l'
  end.

Definition ascii_UTF16ToString (l : list Z) : string :=
  String.string_of_list_ascii ((λ x, Ascii.ascii_of_nat (Z.to_nat x)) <$> until_nul l).

(** Modelled from the spec: the decoded VariantArray and its accessor, which
    are declared outside the file.  A slot is a tagged value; reading a slot
    as a string fails when the slot holds another type, and when the ordinal
    is beyond the array. *)
Inductive Variant : Type :=
  | VarNull
  | VarString (s : string)
  | VarUInt (n : Z)
  | VarFileTime (ticks : Z)
  | VarBoolean (b : bool).

Definition VariantArray_String (fields : list Variant) (ordinal : Z)
  : string * option error :=
  match fields !! Z.to_nat ordinal with
  | Some (VarString s) => (s, None)
  | Some _ => (""%string, Some (ErrorString "TypeMismatch"))
  | None => (""%string, Some (ErrorString "IndexOutOfRange"))
  end.

(** The program on a few scripts. *)

Example FormatMessage_two_calls :
  FormatMessage scripted ascii_UTF16ToString 11 22 EvtFormatMessageEvent
    (script [MkReply 0 122 (Some 3) None []; MkReply 1 0 (Some 3) None [79; 75; 0]])
  = (Returned ("OK"%string, None),
     MkSt []
       [CallEvtFormatMessage 11 22 0 0 None 1 0 None;
        CallEvtFormatMessage 11 22 0 0 None 1 3 (Some (MkSlice KUint16 [0; 0; 0]))]).
Proof. reflexivity. Qed.

Example RenderEventXML_two_calls :
  RenderEventXML scripted ascii_UTF16ToString 7
    (script [MkReply 0 122 (Some 4) (Some 0) [];
             MkReply 1 0 (Some 4) (Some 0) [60; 62; 0]])
  = (Returned (Some "<>"%string, None),
     MkSt []
       [CallEvtRender 0 7 1 0 None;
        CallEvtRender 0 7 1 4 (Some (MkSlice KUint16 [0; 0; 0; 0]))]).
Proof. reflexivity. Qed.

Example RenderEventValues_probe_failure :
  RenderEventValues scripted (λ b : Slice, b) 1 2 (script [MkReply 0 6 None None []])
  = (Returned (None, Some (Errno 6)), MkSt [] [CallEvtRender 1 2 0 0 None]).
Proof. reflexivity. Qed.

Example CreateListener_nul_in_channel :
  CreateListener scripted ascii_UTF16PtrFromString
    (String (Ascii.ascii_of_nat 0) "x") "*" EvtSubscribeToFutureEvents (MkWrapper 1 "x")
    (script [MkReply 9 0 None None []])
  = (Returned (0, Some (ErrorString "invalid argument")),
     script [MkReply 9 0 None None []]).
Proof. reflexivity. Qed.

(** ** Witnesses and counterexamples of the decode claims *)

(** C1, as stated, fails on [RenderEventXML]: the probe reports 4, the
    second call is given a buffer of four 16-bit units, which is 8 bytes. *)
Lemma RenderEventXML_buffer_not_exact_bytes :
  let st := script [MkReply 0 122 (Some 4) (Some 0) [];
                    MkReply 1 0 (Some 4) (Some 0) [60; 62; 0]] in
  ¬ two_phase_exact_bytes scripted (render_probe 0 7 EvtRenderEventXml) st
      (RenderEventXML scripted ascii_UTF16ToString 7 st).2.
Proof.
  cbv zeta. intros [_ (retry & b & Hev & Hbuf & Hbytes & _)].
  vm_compute in Hev. injection Hev as <-.
  vm_compute in Hbuf. injection Hbuf as <-.
  vm_compute in Hbytes. discriminate.
Qed.



(** C8: [FormatMessage] on a probe that reports size 0, once with a probe
    that succeeds and once with one that fails with error 122: the buffer
    is empty, and taking the address of its first element panics. *)
Theorem FormatMessage_empty_buffer_panics :
  FormatMessage scripted ascii_UTF16ToString 11 22 EvtFormatMessageEvent
    (script [MkReply 1 0 (Some 0) None []])
  = (Panicked "index out of range [0] with length 0",
     MkSt [] [CallEvtFormatMessage 11 22 0 0 None 1 0 None])
  ∧ FormatMessage scripted ascii_UTF16ToString 11 22 EvtFormatMessageEvent
      (script [MkReply 0 122 None None []])
    = (Panicked "index out of range [0] with length 0",
       MkSt [] [CallEvtFormatMessage 11 22 0 0 None 1 0 None]).
Proof. split; reflexivity. Qed.

(** ** Witnesses of the subscription and publisher claims *)

Lemma callback_forwards_witness :
  newEventCallback (MkWrapper 5 "Application") 7 0 4242 (script [])
    = (Returned 0, MkSt [] [CallPublishEvent 5 4242 "Application"])
  ∧ (newEventCallback (MkWrapper 5 "Application") EvtSubscribeActionError 0 5
       (script [])).1 = Returned 0.
Proof.
  destruct (callback_forwards_unless_error (World := list Reply)
              (MkWrapper 5 "Application") 7 0 4242 (script []))
    as [Hrun Hzero]; [discriminate|].
  split; [exact Hrun | apply Hzero].
Defined.


Lemma GetEventPublisherHandle_witness :
  GetEventPublisherHandle scripted ascii_UTF16PtrFromString VariantArray_String
    [VarString "Disk"; VarNull; VarUInt 7] (script [MkReply 31 0 None None []])
  = (Returned (31, None),
     MkSt [] [CallEvtOpenPublisherMetadata 0 [68; 105; 115; 107; 0] None 0 0])
  ∧ GetEventPublisherHandle scripted ascii_UTF16PtrFromString VariantArray_String
      [VarUInt 7] (script [MkReply 31 0 None None []])
    = (Returned (0, Some (ErrorString "TypeMismatch")),
       script [MkReply 31 0 None None []]).
Proof.
  split.
  - destruct (GetEventPublisherHandle_uses_provider_name scripted
                ascii_UTF16PtrFromString VariantArray_String
                [VarString "Disk"; VarNull; VarUInt 7]
                (script [MkReply 31 0 None None []])) as [_ Hok].
    destruct (Hok "Disk"%string [68; 105; 115; 107; 0] eq_refl eq_refl) as [Hrun _].
    exact Hrun.
  - destruct (GetEventPublisherHandle_uses_provider_name scripted
                ascii_UTF16PtrFromString VariantArray_String
                [VarUInt 7] (script [MkReply 31 0 None None []])) as [Hfail _].
    destruct (Hfail ""%string (ErrorString "TypeMismatch") eq_refl) as [Hrun _].
    exact Hrun.
Defined.

(** ** CreateMap *)

(** Modelled from the spec: the struct [WinLogEvent], declared outside the
    file, with the fields [CreateMap] reads.  Text fields are strings, the
    numeric fields unsigned integers, [Created] a timestamp (in ticks). *)
Record WinLogEvent : Type := MkWinLogEvent {
  Xml : string;
  ProviderName : string;
  EventId : Z;
  Qualifiers : Z;
  Level : Z;
  Task : Z;
  Opcode : Z;
  Created : Z;
  RecordId : Z;
  ProcessId : Z;
  ThreadId : Z;
  Channel : string;
  ComputerName : string;
  Version : Z;
  Msg : string;
  LevelText : string;
  TaskText : string;
  OpcodeText : string;
  Keywords : string;
  ChannelText : string;
  ProviderText : string;
  IdText : string;
  Bookmark : string;
  SubscribedChannel : string
}.

(** A value of type [interface{}]: the value with its dynamic type. *)
Inductive iface : Type :=
  | IString (s : string)
  | IUint64 (n : Z)
  | ITime (ticks : Z).

#[global] Instance iface_eq_dec : EqDecision iface.
Proof. solve_decision. Defined.

(** The heap: the events behind [*WinLogEvent] pointers and the maps
    behind [map[string]interface{}] values, by address. *)
Record Heap : Type := MkHeap {
  events : gmap positive WinLogEvent;
  maps : gmap positive (gmap string iface)
}.

(** [ev.field]: a read through the pointer, which panics on a pointer to
    nothing. *)
Definition load {A} (ev : positive) (field : WinLogEvent → A) : Exec Heap A := λ h,
  match events h !! ev with
  | Some e => (Returned (field e), h)
  | None => (Panicked "invalid memory address or nil pointer dereference", h)
  end.

(** [make(map[string]interface{})]: a new, empty map at an address not in
    use. *)
Definition make_map : Exec Heap positive := λ h,
  let m := fresh (dom (maps h)) in
  (Returned m, MkHeap (events h) (<[m := ∅]> (maps h))).

(** [m[key] = v] *)
Definition map_assign (m : positive) (key : string) (v : iface) : Exec Heap unit := λ h,
  match maps h !! m with
  | Some entries => (Returned (), MkHeap (events h) (<[m := <[key := v]> entries]> (maps h)))
  | None => (Panicked "assignment to entry in nil map", h)
  end.

(** [m[key] = ev.field] *)
Definition assign_field (m : positive) (key : string) (ev : positive)
    (field : WinLogEvent → iface) : Exec Heap unit :=
  v ← load ev field; map_assign m key v.

Definition CreateMap (ev : positive) : Exec Heap positive :=
  toReturn ← make_map;
  assign_field toReturn "Xml" ev (λ e, IString (Xml e));;
  assign_field toReturn "ProviderName" ev (λ e, IString (ProviderName e));;
  assign_field toReturn "EventId" ev (λ e, IUint64 (EventId e));;
  assign_field toReturn "Qualifiers" ev (λ e, IUint64 (Qualifiers e));;
  assign_field toReturn "Level" ev (λ e, IUint64 (Level e));;
  assign_field toReturn "Task" ev (λ e, IUint64 (Task e));;
  assign_field toReturn "Opcode" ev (λ e, IUint64 (Opcode e));;
  assign_field toReturn "Created" ev (λ e, ITime (Created e));;
  assign_field toReturn "RecordId" ev (λ e, IUint64 (RecordId e));;
  assign_field toReturn "ProcessId" ev (λ e, IUint64 (ProcessId e));;
  assign_field toReturn "ThreadId" ev (λ e, IUint64 (ThreadId e));;
  assign_field toReturn "Channel" ev (λ e, IString (Channel e));;
  assign_field toReturn "ComputerName" ev (λ e, IString (ComputerName e));;
  assign_field toReturn "Version" ev (λ e, IUint64 (Version e));;
  assign_field toReturn "Msg" ev (λ e, IString (Msg e));;
  assign_field toReturn "LevelText" ev (λ e, IString (LevelText e));;
  assign_field toReturn "TaskText" ev (λ e, IString (TaskText e));;
  assign_field toReturn "OpcodeText" ev (λ e, IString (OpcodeText e));;
  assign_field toReturn "Keywords" ev (λ e, IString (Keywords e));;
  assign_field toReturn "ChannelText" ev (λ e, IString (ChannelText e));;
  assign_field toReturn "ProviderText" ev (λ e, IString (ProviderText e));;
  assign_field toReturn "IdText" ev (λ e, IString (IdText e));;
  assign_field toReturn "Bookmark" ev (λ e, IString (Bookmark e));;
  assign_field toReturn "SubscribedChannel" ev (λ e, IString (SubscribedChannel e));;
  assign_field toReturn "Bookmark" ev (λ e, IString (Bookmark e));;
  mret toReturn.

(** The names the claim lists, each with the field of that name. *)
Definition named_fields (e : WinLogEvent) : list (string * iface) :=
  [ ("Xml", IString (Xml e));
    ("ProviderName", IString (ProviderName e));
    ("EventId", IUint64 (EventId e));
    ("Qualifiers", IUint64 (Qualifiers e));
    ("Level", IUint64 (Level e));
    ("Task", IUint64 (Task e));
    ("Opcode", IUint64 (Opcode e));
    ("Created", ITime (Created e));
    ("RecordId", IUint64 (RecordId e));
    ("ProcessId", IUint64 (ProcessId e));
    ("ThreadId", IUint64 (ThreadId e));
    ("Channel", IString (Channel e));
    ("ComputerName", IString (ComputerName e));
    ("Version", IUint64 (Version e));
    ("Msg", IString (Msg e));
    ("LevelText", IString (LevelText e));
    ("TaskText", IString (TaskText e));
    ("OpcodeText", IString (OpcodeText e));
    ("Keywords", IString (Keywords e));
    ("ChannelText", IString (ChannelText e));
    ("ProviderText", IString (ProviderText e));
    ("IdText", IString (IdText e));
    ("Bookmark", IString (Bookmark e));
    ("SubscribedChannel", IString (SubscribedChannel e)) ]%string.

Definition field_names : list string :=
  [ "Xml"; "ProviderName"; "EventId"; "Qualifiers"; "Level"; "Task"; "Opcode";
    "Created"; "RecordId"; "ProcessId"; "ThreadId"; "Channel"; "ComputerName";
    "Version"; "Msg"; "LevelText"; "TaskText"; "OpcodeText"; "Keywords";
    "ChannelText"; "ProviderText"; "IdText"; "Bookmark"; "SubscribedChannel" ]%string.

(** The entries of the map [CreateMap] builds, in the order of its
    assignments. *)
Definition created_entries (e : WinLogEvent) : gmap string iface :=
  <["Bookmark" := IString (Bookmark e)]>
  (<["SubscribedChannel" := IString (SubscribedChannel e)]>
  (<["Bookmark" := IString (Bookmark e)]>
  (<["IdText" := IString (IdText e)]>
  (<["ProviderText" := IString (ProviderText e)]>
  (<["ChannelText" := IString (ChannelText e)]>
  (<["Keywords" := IString (Keywords e)]>
  (<["OpcodeText" := IString (OpcodeText e)]>
  (<["TaskText" := IString (TaskText e)]>
  (<["LevelText" := IString (LevelText e)]>
  (<["Msg" := IString (Msg e)]>
  (<["Version" := IUint64 (Version e)]>
  (<["ComputerName" := IString (ComputerName e)]>
  (<["Channel" := IString (Channel e)]>
  (<["ThreadId" := IUint64 (ThreadId e)]>
  (<["ProcessId" := IUint64 (ProcessId e)]>
  (<["RecordId" := IUint64 (RecordId e)]>
  (<["Created" := ITime (Created e)]>
  (<["Opcode" := IUint64 (Opcode e)]>
  (<["Task" := IUint64 (Task e)]>
  (<["Level" := IUint64 (Level e)]>
  (<["Qualifiers" := IUint64 (Qualifiers e)]>
  (<["EventId" := IUint64 (EventId e)]>
  (<["ProviderName" := IString (ProviderName e)]>
  (<["Xml" := IString (Xml e)]> ∅)))))))))))))))))))))))).

Lemma assign_field_run m key ev field e store entries others :
  store !! ev = Some e →
  assign_field m key ev field (MkHeap store (<[m := entries]> others)) =
    (Returned (), MkHeap store (<[m := <[key := field e]> entries]> others)).
Proof.
  intros He. unfold assign_field, load, map_assign, mbind, Exec_bind. simpl.
  rewrite He. simpl. rewrite lookup_insert_eq. by rewrite insert_insert_eq.
Qed.

Lemma CreateMap_run ev e h :
  events h !! ev = Some e →
  CreateMap ev h =
    (Returned (fresh (dom (maps h))),
     MkHeap (events h) (<[fresh (dom (maps h)) := created_entries e]> (maps h))).
Proof.
  intros He. unfold CreateMap.
  rewrite (Exec_bind_returned make_map _ h (fresh (dom (maps h)))
             (MkHeap (events h) (<[fresh (dom (maps h)) := ∅]> (maps h)))) by done.
  repeat rewrite (Exec_bind_returned _ _ _ _ _ (assign_field_run _ _ _ _ _ _ _ _ He)).
  done.
Qed.

Lemma CreateMap_nil ev h :
  events h !! ev = None →
  (CreateMap ev h).1 = Panicked "invalid memory address or nil pointer dereference".
Proof.
  intros He. unfold CreateMap, make_map, assign_field, load, mbind, Exec_bind.
  simpl. by rewrite He.
Qed.

Lemma created_entries_named e : created_entries e = list_to_map (named_fields e).
Proof. apply map_eq. intros k. vm_compute. reflexivity. Qed.

Lemma field_names_NoDup : NoDup field_names.
Proof. apply (bool_decide_unpack _). vm_compute. reflexivity. Qed.

Lemma named_fields_names e : (named_fields e).*1 = field_names.
Proof. reflexivity. Qed.

(** C7: on a pointer to an event, [CreateMap] returns a map whose keys are
    exactly the 24 names of the list, each bound to the field of the event
    that has that name. *)
Theorem CreateMap_named_fields ev e h :
  events h !! ev = Some e →
  ∃ m h' entries,
    CreateMap ev h = (Returned m, h')
    ∧ maps h' !! m = Some entries
    ∧ entries = list_to_map (named_fields e)
    ∧ dom entries = list_to_set field_names
    ∧ (∀ key v, entries !! key = Some v ↔ (key, v) ∈ named_fields e)
    ∧ (named_fields e).*1 = field_names
    ∧ NoDup field_names
    ∧ length field_names = 24%nat.
Proof.
  intros He. eexists _, _, (created_entries e).
  split_and!.
  - by apply CreateMap_run.
  - simpl. apply lookup_insert_eq.
  - apply created_entries_named.
  - rewrite created_entries_named, dom_list_to_map_L, named_fields_names. done.
  - intros key v. rewrite created_entries_named. symmetry.
    apply elem_of_list_to_map. rewrite named_fields_names. apply field_names_NoDup.
  - done.
  - apply field_names_NoDup.
  - done.
Qed.

(** C10: [CreateMap] leaves the event it reads, and every other event, as
    it was.  The map it returns is at an address that held no map before,
    and the other maps are untouched: a second call returns another map and
    does not change the first. *)
Theorem CreateMap_reads_only ev e h :
  events h !! ev = Some e →
  let first := CreateMap ev h in
  let second := CreateMap ev first.2 in
  ∃ m m',
    first.1 = Returned m
    ∧ second.1 = Returned m'
    ∧ events first.2 = events h
    ∧ events first.2 !! ev = Some e
    ∧ maps h !! m = None
    ∧ (∀ other, other ≠ m → maps first.2 !! other = maps h !! other)
    ∧ m' ≠ m
    ∧ maps second.2 !! m = maps first.2 !! m.
Proof.
  intros He. cbv zeta.
  set (m := fresh (dom (maps h))).
  set (m' := fresh (dom (<[m := created_entries e]> (maps h)))).
  assert (CreateMap ev h =
            (Returned m, MkHeap (events h) (<[m := created_entries e]> (maps h))))
    as Hfirst by by apply CreateMap_run.
  assert (m' ≠ m) as Hne.
  { intros Heq. pose proof (is_fresh (dom (<[m := created_entries e]> (maps h)))) as Hf.
    fold m' in Hf. rewrite Heq in Hf. apply Hf. rewrite dom_insert_L. set_solver. }
  exists m, m'. rewrite Hfirst. simpl.
  rewrite (CreateMap_run ev e (MkHeap (events h) (<[m := created_entries e]> (maps h))) He).
  simpl. fold m'.
  split_and!; try done.
  - apply not_elem_of_dom. apply is_fresh.
  - intros other Ho. by rewrite lookup_insert_ne.
  - by rewrite lookup_insert_ne.
Qed.

(** A heap with one event, for running [CreateMap]. *)
Definition sample_event : WinLogEvent :=
  MkWinLogEvent "<Event/>" "Disk" 7 0 2 0 0 133000000000000000 4711 4 8
    "System" "host" 0 "bad block" "Error" "" "" "Classic" "System" "Disk" ""
    "<BookmarkList/>" "System".

Definition sample_heap : Heap := MkHeap {[ 3%positive := sample_event ]} ∅.

Lemma CreateMap_named_fields_witness :
  ∃ m h' entries,
    CreateMap 3 sample_heap = (Returned m, h')
    ∧ maps h' !! m = Some entries
    ∧ entries !! "Channel"%string = Some (IString "System")
    ∧ entries !! "EventId"%string = Some (IUint64 7)
    ∧ entries !! "XmlErr"%string = None.
Proof.
  destruct (CreateMap_named_fields 3 sample_event sample_heap eq_refl)
    as (m & h' & entries & Hrun & Hm & Hentries & _).
  exists m, h', entries. rewrite Hentries at 2 3 4.
  split_and!; [exact Hrun | exact Hm | reflexivity | reflexivity | reflexivity].
Defined.

Lemma CreateMap_reads_only_witness :
  ∃ m m',
    (CreateMap 3 sample_heap).1 = Returned m
    ∧ (CreateMap 3 (CreateMap 3 sample_heap).2).1 = Returned m'
    ∧ events (CreateMap 3 sample_heap).2 !! 3%positive = Some sample_event
    ∧ m' ≠ m.
Proof.
  destruct (CreateMap_reads_only 3 sample_event sample_heap eq_refl)
    as (m & m' & H1 & H2 & _ & He & _ & _ & Hne & _).
  exists m, m'. split_and!; [exact H1 | exact H2 | exact He | exact Hne].
Defined.

(** ** Results and errors of the bridge functions *)

(** A result [(handle, err)] is well formed when the handle is non-zero
    exactly when the error is [nil]. *)
Definition handle_xor_error (o : Outcome (Z * option error)) : Prop :=
  match o with
  | Returned (handle, err) => handle ≠ 0 ↔ err = None
  | Panicked _ => False
  end.

(** The error the listeners stop on before they subscribe: the channel's
    conversion error, else the query's. *)
Definition first_conversion_error (channel query : error + list Z) : option error :=
  match channel, query with
  | inl e, _ => Some e
  | inr _, inl e => Some e
  | inr _, inr _ => None
  end.

(** A call to a procedure of the library, as opposed to a method call on
    the consumer's callback object. *)
Definition is_native_call (e : Event) : bool :=
  match e with
  | CallPublishError _ _ | CallPublishEvent _ _ _ => false
  | _ => true
  end.

(** The callback a subscribe call registered. *)
Definition registered (e : Event) : option Trampoline :=
  match e with
  | CallEvtSubscribe _ _ _ _ _ _ cb _ => Some cb
  | _ => None
  end.

(** The native layer handing a subscription's notifications
    [(action, handle)] to its registered callback, one after the other,
    with the context value [0] the listeners subscribe with. *)
Fixpoint deliver_all {World : Type} (cb : Trampoline) (ns : list (Z * Z))
  : Exec (@St World) unit :=
  match ns with
  | [] => mret ()
  | (action, handle) :: ns' => enter cb action 0 handle;; deliver_all cb ns'
  end.

(** What a watcher is handed for one notification. *)
Definition notification_event (w : LogEventCallbackWrapper) (n : Z * Z) : Event :=
  if decide (n.1 = EvtSubscribeActionError)
  then CallPublishError (callback w)
         (Errorf "Event log callback got error: %v" (Errno n.2))
  else CallPublishEvent (callback w) n.2 (subscribedChannel w).

(** The records and the errors among notifications, in order. *)
Definition delivered (w : LogEventCallbackWrapper) (ns : list (Z * Z))
  : list (Z * string) :=
  (λ n, (n.2, subscribedChannel w)) <$>
    filter (λ n, n.1 ≠ EvtSubscribeActionError) ns.

Definition failed (ns : list (Z * Z)) : list error :=
  (λ n, Errorf "Event log callback got error: %v" (Errno n.2)) <$>
    filter (λ n, n.1 = EvtSubscribeActionError) ns.

Section Results.

Context {World : Type}.
Variable native : World → Event → Reply * World.
Variable UTF16PtrFromString : string → error + list Z.
Variable UTF16ToString : list Z → string.
Context {EvtVariant : Type}.
Variable NewEvtVariant : Slice → EvtVariant.
Variable EvtVariant_String : EvtVariant → Z → string * option error.

Lemma listener_result_handle_xor_error r :
  handle_xor_error (Returned (listener_result r)).
Proof.
  unfold listener_result, handle_xor_error.
  destruct (decide (r1 r = 0)); split; intros; congruence.
Qed.

(** X1: the two listeners and [GetEventPublisherHandle] never panic, and
    the handle they return is non-zero exactly when the error is [nil]. *)
Theorem handle_nonzero_iff_no_error channel query startpos watcher bookmarkHandle
    (renderedFields : EvtVariant) (st : St) :
  handle_xor_error
    (CreateListener native UTF16PtrFromString channel query startpos watcher st).1
  ∧ handle_xor_error
      (CreateListenerFromBookmark native UTF16PtrFromString channel query watcher
         bookmarkHandle st).1
  ∧ handle_xor_error
      (GetEventPublisherHandle native UTF16PtrFromString EvtVariant_String
         renderedFields st).1.
Proof.
  rewrite CreateListener_run, CreateListenerFromBookmark_run,
    GetEventPublisherHandle_run.
  split_and!.
  - destruct (UTF16PtrFromString channel), (UTF16PtrFromString query); simpl;
      try apply listener_result_handle_xor_error; split; congruence.
  - destruct (UTF16PtrFromString channel), (UTF16PtrFromString query); simpl;
      try apply listener_result_handle_xor_error; split; congruence.
  - destruct (EvtVariant_String _ _) as [publisher [e|]]; simpl; [split; congruence|].
    destruct (UTF16PtrFromString publisher); simpl;
      try apply listener_result_handle_xor_error; split; congruence.
Qed.

(** X2: when the channel does not convert, or it does and the query does
    not, both listeners return the zero handle with that conversion error
    (the channel's first) and leave the state as it was: nothing is called. *)
Theorem listeners_stop_on_conversion_error channel query startpos watcher
    bookmarkHandle e (st : St) :
  first_conversion_error (UTF16PtrFromString channel) (UTF16PtrFromString query)
    = Some e →
  CreateListener native UTF16PtrFromString channel query startpos watcher st
    = (Returned (0, Some e), st)
  ∧ CreateListenerFromBookmark native UTF16PtrFromString channel query watcher
      bookmarkHandle st
    = (Returned (0, Some e), st).
Proof.
  intros He. rewrite CreateListener_run, CreateListenerFromBookmark_run.
  destruct (UTF16PtrFromString channel), (UTF16PtrFromString query);
    simpl in He; by simplify_eq.
Qed.

(** X3: when [RenderEventValues] returns a variant, the error is [nil],
    two calls were made, and the variant is made of a byte buffer that has
    exactly the length the probe reported. *)
Theorem RenderEventValues_variant_shape c h v err (st : St) :
  (RenderEventValues native NewEvtVariant c h st).1 = Returned (Some v, err) →
  let probe := render_probe c h EvtRenderEventValues in
  let n := reported native st probe in
  err = None
  ∧ n ≠ 0
  ∧ new_events st (RenderEventValues native NewEvtVariant c h st).2
      = [probe; render_retry KByte c h EvtRenderEventValues n]
  ∧ ∃ buffer, v = NewEvtVariant buffer ∧ kind buffer = KByte ∧ len buffer = n.
Proof.
  cbv zeta. rewrite RenderEventValues_run. cbv zeta.
  destruct (decide _) as [Hn|Hn]; simpl; [intros [=]|].
  destruct (wrapper_err _); simpl; intros [= <- <-].
  split_and!; [done | done | apply new_events_after2 |].
  eexists. split_and!; [done | done |].
  rewrite len_store_slice. apply len_make. apply reported_range.
Qed.

(** X4: a probe that succeeds and reports size 0 makes the two render
    functions return neither a result nor an error. *)
Theorem render_nil_nil_on_empty_success c h (st : St) :
  (r1 (reply native st (render_probe c h EvtRenderEventValues)) ≠ 0 →
   reported native st (render_probe c h EvtRenderEventValues) = 0 →
   (RenderEventValues native NewEvtVariant c h st).1 = Returned (None, None))
  ∧ (r1 (reply native st (render_probe 0 h EvtRenderEventXml)) ≠ 0 →
     reported native st (render_probe 0 h EvtRenderEventXml) = 0 →
     (RenderEventXML native UTF16ToString h st).1 = Returned (None, None)).
Proof.
  split; intros Hok Hn.
  - rewrite RenderEventValues_zero_size by done. simpl.
    unfold wrapper_err. by rewrite decide_False.
  - rewrite RenderEventXML_zero_size by done. simpl.
    unfold wrapper_err. by rewrite decide_False.
Qed.

(** X5: the results of the decodes exclude each other: [FormatMessage]
    returns the empty string with every error, and the render functions
    return no result with an error. *)
Theorem decode_error_means_no_result c h p f e (st : St) :
  (∀ s, (FormatMessage native UTF16ToString p h f st).1 = Returned (s, Some e) →
        s = ""%string)
  ∧ (∀ v, (RenderEventValues native NewEvtVariant c h st).1 = Returned (v, Some e) →
          v = None)
  ∧ (∀ x, (RenderEventXML native UTF16ToString h st).1 = Returned (x, Some e) →
          x = None).
Proof.
  split_and!.
  - intros s. rewrite FormatMessage_run. cbv zeta.
    destruct (probe_fatal _); simpl; [by intros [= <- _]|].
    destruct (decide _); simpl; [done|].
    destruct (wrapper_err _); simpl; by intros [=].
  - intros v. rewrite RenderEventValues_run. cbv zeta.
    destruct (decide _); simpl; [by intros [= <- _]|].
    destruct (wrapper_err _); simpl; by intros [=].
  - intros x. rewrite RenderEventXML_run. cbv zeta.
    destruct (decide _); simpl; [by intros [= <- _]|].
    destruct (wrapper_err _); simpl; by intros [=].
Qed.

Lemma published_after (st : St) e :
  is_native_call e = true →
  published_events (trace (after native st e)) = published_events (trace st)
  ∧ published_errors (trace (after native st e)) = published_errors (trace st).
Proof.
  intros He. rewrite trace_after, published_events_app, published_errors_app.
  destruct e; simpl in *; try discriminate; by rewrite !app_nil_r.
Qed.

(** The traces of the decodes and the listeners only grow by native calls. *)
Definition quiet (st st' : @St World) : Prop :=
  published_events (trace st') = published_events (trace st)
  ∧ published_errors (trace st') = published_errors (trace st)
  ∧ forallb is_native_call (new_events st st') = true
  ∧ (length (new_events st st') ≤ 2)%nat.

Lemma quiet_same (st : @St World) : quiet st st.
Proof. unfold quiet. rewrite new_events_same. simpl. split_and!; auto with lia. Qed.

Lemma quiet_after (st : St) e : is_native_call e = true → quiet st (after native st e).
Proof.
  intros He. destruct (published_after st e He) as [H1 H2].
  unfold quiet. rewrite new_events_after.
  split_and!; [done | done | simpl; by rewrite He | simpl; lia].
Qed.

Lemma quiet_after2 (st : St) e1 e2 :
  is_native_call e1 = true → is_native_call e2 = true →
  quiet st (after native (after native st e1) e2).
Proof.
  intros He1 He2.
  destruct (published_after st e1 He1) as [H1 H2].
  destruct (published_after (after native st e1) e2 He2) as [H3 H4].
  unfold quiet. rewrite new_events_after2.
  split_and!; [by rewrite H3 | by rewrite H4 | simpl; by rewrite He1, He2 | simpl; lia].
Qed.

(** X6: the decodes, the listeners and [GetEventPublisherHandle] hand
    nothing to a callback object: what they add to the trace are native
    calls only, at most two of them, and the published records and errors
    are as before. *)
Theorem bridge_publishes_nothing c h p f channel query startpos watcher bookmarkHandle
    (renderedFields : EvtVariant) (st : St) :
  quiet st (RenderEventValues native NewEvtVariant c h st).2
  ∧ quiet st (RenderEventXML native UTF16ToString h st).2
  ∧ quiet st (FormatMessage native UTF16ToString p h f st).2
  ∧ quiet st (CreateListener native UTF16PtrFromString channel query startpos
                watcher st).2
  ∧ quiet st (CreateListenerFromBookmark native UTF16PtrFromString channel query
                watcher bookmarkHandle st).2
  ∧ quiet st (GetEventPublisherHandle native UTF16PtrFromString EvtVariant_String
                renderedFields st).2.
Proof.
  rewrite RenderEventValues_run, RenderEventXML_run, FormatMessage_run,
    CreateListener_run, CreateListenerFromBookmark_run, GetEventPublisherHandle_run.
  cbv zeta. split_and!.
  - destruct (decide _); simpl; [by apply quiet_after | by apply quiet_after2].
  - destruct (decide _); simpl; [by apply quiet_after | by apply quiet_after2].
  - destruct (probe_fatal _); simpl; [by apply quiet_after|].
    destruct (decide _); simpl; [by apply quiet_after | by apply quiet_after2].
  - destruct (UTF16PtrFromString channel), (UTF16PtrFromString query); simpl;
      try apply quiet_same; by apply quiet_after.
  - destruct (UTF16PtrFromString channel), (UTF16PtrFromString query); simpl;
      try apply quiet_same; by apply quiet_after.
  - destruct (EvtVariant_String _ _) as [publisher [e|]]; simpl; [apply quiet_same|].
    destruct (UTF16PtrFromString publisher); simpl;
      [apply quiet_same | by apply quiet_after].
Qed.

Lemma notification_event_run w action handle (st : @St World) :
  enter (NewCallback w) action 0 handle st =
    (Returned 0, MkSt (world st) (trace st ++ [notification_event w (action, handle)])).
Proof. simpl. by rewrite newEventCallback_run. Qed.

Lemma deliver_all_run w ns (st : @St World) :
  deliver_all (NewCallback w) ns st =
    (Returned (), MkSt (world st) (trace st ++ (notification_event w <$> ns))).
Proof.
  revert st. induction ns as [|[action handle] ns IH]; intros st.
  - simpl. rewrite app_nil_r. by destruct st.
  - cbn [deliver_all].
    rewrite (Exec_bind_returned _ _ _ _ _ (notification_event_run w action handle st)).
    rewrite IH. simpl. by rewrite <- (assoc_L (++)).
Qed.

Lemma published_notifications w ns :
  published_events (notification_event w <$> ns) = delivered w ns
  ∧ published_errors (notification_event w <$> ns) = failed ns.
Proof.
  unfold delivered, failed.
  induction ns as [|[action handle] ns [IHe IHf]]; [done|].
  rewrite fmap_cons. unfold notification_event at 1 3. simpl.
  destruct (decide (action = EvtSubscribeActionError)) as [Ha|Ha].
  - rewrite filter_cons_False by (simpl; tauto).
    rewrite filter_cons_True by done.
    split; [exact IHe | simpl; f_equal; exact IHf].
  - rewrite filter_cons_True by done.
    rewrite filter_cons_False by done.
    split; [simpl; f_equal; exact IHe | exact IHf].
Qed.

Lemma deliver_all_published w ns (st : @St World) :
  (deliver_all (NewCallback w) ns st).1 = Returned ()
  ∧ published_events (trace (deliver_all (NewCallback w) ns st).2)
      = published_events (trace st) ++ delivered w ns
  ∧ published_errors (trace (deliver_all (NewCallback w) ns st).2)
      = published_errors (trace st) ++ failed ns.
Proof.
  rewrite deliver_all_run. simpl.
  rewrite published_events_app, published_errors_app.
  by destruct (published_notifications w ns) as [-> ->].
Qed.


(** X8: after [CreateListener] or [CreateListenerFromBookmark] subscribed,
    the callback found in the subscribe call, handed notifications by the
    native layer, publishes to the watcher the listener was given: the
    records carry that watcher's channel name and arrive in order. *)
Theorem listener_callback_reaches_watcher channel query startpos watcher bookmarkHandle
    bookmarked ns wideChan wideQuery (st : St) :
  UTF16PtrFromString channel = inr wideChan →
  UTF16PtrFromString query = inr wideQuery →
  let run :=
    if bookmarked : bool
    then CreateListenerFromBookmark native UTF16PtrFromString channel query watcher
           bookmarkHandle st
    else CreateListener native UTF16PtrFromString channel query startpos watcher st in
  ∃ call cb,
    new_events st run.2 = [call]
    ∧ registered call = Some cb
    ∧ (deliver_all cb ns run.2).1 = Returned ()
    ∧ published_events (trace (deliver_all cb ns run.2).2)
        = published_events (trace st) ++ delivered watcher ns
    ∧ published_errors (trace (deliver_all cb ns run.2).2)
        = published_errors (trace st) ++ failed ns.
Proof.
  intros Hc Hq. cbv zeta.
  destruct bookmarked.
  - rewrite CreateListenerFromBookmark_run, Hc, Hq. cbv zeta.
    eexists _, (NewCallback watcher). simpl snd.
    split; [apply new_events_after|]. split; [done|].
    destruct (deliver_all_published watcher ns (after native st
      (CallEvtSubscribe 0 0 wideChan wideQuery bookmarkHandle 0 (NewCallback watcher) 3)))
      as (H1 & H3 & H4).
    destruct (published_after st
      (CallEvtSubscribe 0 0 wideChan wideQuery bookmarkHandle 0 (NewCallback watcher) 3)
      eq_refl) as [H5 H6].
    rewrite H5 in H3. rewrite H6 in H4. done.
  - rewrite CreateListener_run, Hc, Hq. cbv zeta.
    eexists _, (NewCallback watcher). simpl snd.
    split; [apply new_events_after|]. split; [done|].
    destruct (deliver_all_published watcher ns (after native st
      (CallEvtSubscribe 0 0 wideChan wideQuery 0 0 (NewCallback watcher)
         (uint32 startpos))))
      as (H1 & H3 & H4).
    destruct (published_after st
      (CallEvtSubscribe 0 0 wideChan wideQuery 0 0 (NewCallback watcher)
         (uint32 startpos)) eq_refl) as [H5 H6].
    rewrite H5 in H3. rewrite H6 in H4. done.
Qed.

End Results.

(** ** Witnesses of the result properties *)

Lemma listeners_stop_on_conversion_error_witness :
  let st := script [MkReply 9 0 None None []] in
  let channel := String (Ascii.ascii_of_nat 0) "x" in
  CreateListener scripted ascii_UTF16PtrFromString channel "*"
    EvtSubscribeToFutureEvents (MkWrapper 1 "x") st
    = (Returned (0, Some (ErrorString "invalid argument")), st)
  ∧ CreateListenerFromBookmark scripted ascii_UTF16PtrFromString channel "*"
      (MkWrapper 1 "x") 77 st
    = (Returned (0, Some (ErrorString "invalid argument")), st).
Proof.
  cbv zeta.
  apply (listeners_stop_on_conversion_error scripted ascii_UTF16PtrFromString
           (String (Ascii.ascii_of_nat 0) "x") "*" EvtSubscribeToFutureEvents
           (MkWrapper 1 "x") 77 (ErrorString "invalid argument")
           (script [MkReply 9 0 None None []])).
  reflexivity.
Defined.

Lemma RenderEventValues_variant_shape_witness :
  let st := script [MkReply 0 122 (Some 4) (Some 1) [];
                    MkReply 1 0 (Some 4) (Some 1) [1; 2]] in
  new_events st (RenderEventValues scripted (λ b : Slice, b) 1 2 st).2
    = [render_probe 1 2 EvtRenderEventValues;
       render_retry KByte 1 2 EvtRenderEventValues 4]
  ∧ ∃ buffer, MkSlice KByte [1; 2; 0; 0] = buffer ∧ kind buffer = KByte
              ∧ len buffer = 4.
Proof.
  cbv zeta.
  destruct (RenderEventValues_variant_shape scripted (λ b : Slice, b) 1 2
              (MkSlice KByte [1; 2; 0; 0]) None
              (script [MkReply 0 122 (Some 4) (Some 1) [];
                       MkReply 1 0 (Some 4) (Some 1) [1; 2]]) eq_refl)
    as (_ & _ & Hev & Hbuf).
  split; [exact Hev | exact Hbuf].
Defined.

Lemma render_nil_nil_witness :
  (RenderEventValues scripted (λ b : Slice, b) 1 2
     (script [MkReply 1 0 None None []])).1 = Returned (None, None)
  ∧ (RenderEventXML scripted ascii_UTF16ToString 2
       (script [MkReply 1 0 None None []])).1 = Returned (None, None).
Proof.
  destruct (render_nil_nil_on_empty_success scripted ascii_UTF16ToString
              (λ b : Slice, b) 1 2 (script [MkReply 1 0 None None []]))
    as [Hv Hx].
  split; [apply Hv | apply Hx]; (discriminate || reflexivity).
Defined.

Lemma decode_error_means_no_result_witness :
  ∃ s, (FormatMessage scripted ascii_UTF16ToString 1 2 3
          (script [MkReply 0 5 (Some 9) None []])).1
       = Returned (s, Some (Errno 5))
       ∧ s = ""%string.
Proof.
  destruct (decode_error_means_no_result scripted ascii_UTF16ToString
              (λ b : Slice, b) 1 2 1 3 (Errno 5)
              (script [MkReply 0 5 (Some 9) None []])) as [Hf _].
  eexists. split; [reflexivity|]. apply Hf. reflexivity.
Defined.

Lemma listener_callback_reaches_watcher_witness :
  let st := script [MkReply 900 0 None None []] in
  let w := MkWrapper 5 "Application" in
  ∃ call cb,
    new_events st
      (CreateListener scripted ascii_UTF16PtrFromString "Application" "*"
         EvtSubscribeToFutureEvents w st).2 = [call]
    ∧ registered call = Some cb
    ∧ published_events
        (trace (deliver_all cb [(1, 10); (0, 5); (1, 11); (1, 12)]
                  (CreateListener scripted ascii_UTF16PtrFromString "Application" "*"
                     EvtSubscribeToFutureEvents w st).2).2)
      = [(10, "Application"%string); (11, "Application"%string);
         (12, "Application"%string)].
Proof.
  cbv zeta.
  destruct (listener_callback_reaches_watcher scripted ascii_UTF16PtrFromString
              "Application" "*" EvtSubscribeToFutureEvents
              (MkWrapper 5 "Application") 0 false [(1, 10); (0, 5); (1, 11); (1, 12)]
              (ascii_units "Application" ++ [0]) [42; 0]
              (script [MkReply 900 0 None None []]) eq_refl eq_refl)
    as (call & cb & Hev & Hreg & _ & Hpub & _).
  exists call, cb. split_and!; [exact Hev | exact Hreg | exact Hpub].
Defined.

(** ** Handles: render contexts, queries, close and cancel *)

Definition EvtQueryChannelPath : Z := 0x1.
Definition EvtQueryFilePath : Z := 0x2.
Definition EvtQueryForwardDirection : Z := 0x100.
Definition EvtQueryReverseDirection : Z := 0x200.
Definition EvtQueryTolerateQueryErrors : Z := 0x1000.

(** The calls of the remaining procedures, with the arguments as passed.
    A string pointer is [None] for [nil]; [EvtNext]'s event array is given
    by the handles it holds when the call is made. *)
Inductive HandleCall : Type :=
  | CallEvtCreateBookmark (BookmarkXml : option (list Z))
  | CallEvtUpdateBookmark (Bookmark Event : Z)
  | CallEvtClose (Object : Z)
  | CallEvtCancel (handle : Z)
  | CallEvtCreateRenderContext (ValuePathsCount ValuePaths Flags : Z)
  | CallEvtQuery (Session : Z) (Path Query : option (list Z)) (Flags : Z)
  | CallEvtNext (ResultSet EventArraySize : Z) (EventArray : list Z) (Timeout Flags : Z).

#[global] Instance HandleCall_eq_dec : EqDecision HandleCall.
Proof. solve_decision. Defined.

(** The pointer of [p, _ := syscall.UTF16PtrFromString(s)]: [nil] when the
    conversion failed. *)
Definition pointer_of (r : error + list Z) : option (list Z) :=
  match r with
  | inr wide => Some wide
  | inl _ => None
  end.

(** The handles a list of calls closes, in order. *)
Definition closed_handles (t : list HandleCall) : list Z :=
  omap (λ e, match e with CallEvtClose h => Some h | _ => None end) t.

Section Handles.

Context {World : Type}.
Variable native : World → HandleCall → Reply * World.
Variable UTF16PtrFromString : string → error + list Z.

Record HSt : Type := MkHSt { hworld : World; calls : list HandleCall }.

Local Abbreviation H := (Exec HSt).

Definition HCall (e : HandleCall) : H Reply := λ st,
  let '(r, w) := native (hworld st) e in
  (Returned r, MkHSt w (calls st ++ [e])).

Definition hreply (st : HSt) (e : HandleCall) : Reply := (native (hworld st) e).1.
Definition hafter (st : HSt) (e : HandleCall) : HSt :=
  MkHSt (native (hworld st) e).2 (calls st ++ [e]).

(** The calls a run appended. *)
Definition new_calls (st st' : HSt) : list HandleCall :=
  drop (length (calls st)) (calls st').

(** *** The interop wrappers *)

Definition EvtCreateBookmark (BookmarkXml : option (list Z)) : H (Z * option error) :=
  r ← HCall (CallEvtCreateBookmark BookmarkXml);
  if decide (r1 r = 0)
  then mret (0, Some (Errno (lastErr r)))
  else mret (r1 r, None).

Definition EvtUpdateBookmark (Bookmark Event : Z) : H (option error) :=
  r ← HCall (CallEvtUpdateBookmark Bookmark Event);
  if decide (r1 r = 0) then mret (Some (Errno (lastErr r))) else mret None.

Definition EvtClose (Object : Z) : H (option error) :=
  r ← HCall (CallEvtClose Object);
  if decide (r1 r = 0) then mret (Some (Errno (lastErr r))) else mret None.

Definition EvtCancel (handle : Z) : H (option error) :=
  r ← HCall (CallEvtCancel handle);
  if decide (r1 r = 0) then mret (Some (Errno (lastErr r))) else mret None.

Definition EvtCreateRenderContext (ValuePathsCount ValuePaths Flags : Z)
  : H (Z * option error) :=
  r ← HCall (CallEvtCreateRenderContext ValuePathsCount ValuePaths Flags);
  if decide (r1 r = 0)
  then mret (0, Some (Errno (lastErr r)))
  else mret (r1 r, None).

Definition EvtQuery (Session : Z) (Path Query : option (list Z)) (Flags : Z)
  : H (Z * option error) :=
  r ← HCall (CallEvtQuery Session Path Query Flags);
  if decide (r1 r = 0)
  then mret (0, Some (Errno (lastErr r)))
  else mret (r1 r, None).

(** The array behind [EventArray] and the variable behind [Returned] are
    passed in and come back with the error. *)
Definition EvtNext (ResultSet EventArraySize : Z) (EventArray : list Z)
    (Timeout Flags : Z) (Returned_ : Z) : H (option error * list Z * Z) :=
  r ← HCall (CallEvtNext ResultSet EventArraySize EventArray Timeout Flags);
  let EventArray' := overlay EventArray (out_data r) in
  let Returned' := written Returned_ (out_count r) in
  if decide (r1 r = 0)
  then mret (Some (Errno (lastErr r)), EventArray', Returned')
  else mret (None, EventArray', Returned').

(** *** GetSystemRenderContext, CloseEventHandle, CancelEventHandle *)

Definition GetSystemRenderContext : H (Z * option error) :=
  '(context, err) ← EvtCreateRenderContext 0 0 EvtRenderContextSystem;
  match err with
  | Some e => mret (0, Some e)
  | None => mret (context, None)
  end.

Definition CloseEventHandle (handle : Z) : H (option error) :=
  EvtClose handle.

Definition CancelEventHandle (handle : Z) : H (option error) :=
  err ← EvtCancel handle;
  match err with
  | Some e => mret (Some e)
  | None => mret None
  end.

(** *** getTestEventHandle *)

Definition getTestEventHandle : H (Z * option error) :=
  let wideQuery := pointer_of (UTF16PtrFromString "*") in
  let wideChannel := pointer_of (UTF16PtrFromString "Application") in
  '(handle, err) ← EvtQuery 0 wideChannel wideQuery EvtQueryChannelPath;
  match err with
  | Some e => mret (0, Some e)
  | None =>
    let record := 0 in
    let recordsReturned := 0 in
    '(err, array, recordsReturned) ← EvtNext handle 1 [record] 500 0 recordsReturned;
    let record := default 0 (head array) in
    match err with
    | Some _ => EvtClose handle;; mret (0, None)
    | None => EvtClose handle;; mret (record, None)
    end
  end.

(** *** Running them *)

Lemma HCall_run e st : HCall e st = (Returned (hreply st e), hafter st e).
Proof. unfold HCall, hreply, hafter. by destruct (native (hworld st) e). Qed.

Lemma new_calls_same st : new_calls st st = [].
Proof. unfold new_calls. by rewrite drop_all. Qed.

Lemma new_calls_app st w t : new_calls st (MkHSt w (calls st ++ t)) = t.
Proof. unfold new_calls. simpl. by rewrite drop_app_length. Qed.

Lemma new_calls_hafter st e : new_calls st (hafter st e) = [e].
Proof. apply new_calls_app. Qed.

Lemma new_calls_hafter3 st e1 e2 e3 :
  new_calls st (hafter (hafter (hafter st e1) e2) e3) = [e1; e2; e3].
Proof.
  unfold hafter at 1. simpl. rewrite <- !(assoc_L (++)). apply new_calls_app.
Qed.

Lemma EvtClose_run Object st :
  EvtClose Object st =
    (Returned (wrapper_err (hreply st (CallEvtClose Object))),
     hafter st (CallEvtClose Object)).
Proof.
  unfold EvtClose. rewrite (Exec_bind_returned _ _ _ _ _ (HCall_run _ _)).
  unfold wrapper_err. by destruct (decide _).
Qed.

Lemma EvtCancel_run handle st :
  EvtCancel handle st =
    (Returned (wrapper_err (hreply st (CallEvtCancel handle))),
     hafter st (CallEvtCancel handle)).
Proof.
  unfold EvtCancel. rewrite (Exec_bind_returned _ _ _ _ _ (HCall_run _ _)).
  unfold wrapper_err. by destruct (decide _).
Qed.

Lemma EvtQuery_run Session Path Query Flags st :
  let e := CallEvtQuery Session Path Query Flags in
  EvtQuery Session Path Query Flags st =
    (Returned (listener_result (hreply st e)), hafter st e).
Proof.
  cbv zeta. unfold EvtQuery. rewrite (Exec_bind_returned _ _ _ _ _ (HCall_run _ _)).
  unfold listener_result. by destruct (decide _).
Qed.

Lemma EvtCreateRenderContext_run n paths flags st :
  let e := CallEvtCreateRenderContext n paths flags in
  EvtCreateRenderContext n paths flags st =
    (Returned (listener_result (hreply st e)), hafter st e).
Proof.
  cbv zeta. unfold EvtCreateRenderContext.
  rewrite (Exec_bind_returned _ _ _ _ _ (HCall_run _ _)).
  unfold listener_result. by destruct (decide _).
Qed.

Lemma EvtNext_run rs size array timeout flags ret st :
  let e := CallEvtNext rs size array timeout flags in
  EvtNext rs size array timeout flags ret st =
    (Returned (wrapper_err (hreply st e),
               overlay array (out_data (hreply st e)),
               written ret (out_count (hreply st e))),
     hafter st e).
Proof.
  cbv zeta. unfold EvtNext. rewrite (Exec_bind_returned _ _ _ _ _ (HCall_run _ _)).
  unfold wrapper_err. by destruct (decide _).
Qed.

(** The three calls of [getTestEventHandle]. *)
Definition test_query : HandleCall :=
  CallEvtQuery 0 (pointer_of (UTF16PtrFromString "Application"))
    (pointer_of (UTF16PtrFromString "*")) EvtQueryChannelPath.
Definition test_next (q : Z) : HandleCall := CallEvtNext q 1 [0] 500 0.
Definition test_close (q : Z) : HandleCall := CallEvtClose q.

Lemma getTestEventHandle_run st :
  let q := r1 (hreply st test_query) in
  let st1 := hafter st test_query in
  let next := hreply st1 (test_next q) in
  let st3 := hafter (hafter st1 (test_next q)) (test_close q) in
  getTestEventHandle st =
    if decide (q = 0)
    then (Returned (0, Some (Errno (lastErr (hreply st test_query)))), st1)
    else if decide (r1 next = 0)
    then (Returned (0, None), st3)
    else (Returned (default 0 (head (overlay [0] (out_data next))), None), st3).
Proof.
  cbv zeta. unfold getTestEventHandle.
  rewrite (Exec_bind_returned _ _ _ _ _ (EvtQuery_run _ _ _ _ _)).
  fold test_query. unfold listener_result.
  destruct (decide (r1 (hreply st test_query) = 0)) as [Hq|Hq]; [done|].
  rewrite (Exec_bind_returned _ _ _ _ _ (EvtNext_run _ _ _ _ _ _ _)).
  fold (test_next (r1 (hreply st test_query))). unfold wrapper_err.
  destruct (decide (r1 _ = 0)) as [Hn|Hn].
  - by rewrite (Exec_bind_returned _ _ _ _ _ (EvtClose_run _ _)).
  - by rewrite (Exec_bind_returned _ _ _ _ _ (EvtClose_run _ _)).
Qed.

(** X9: [getTestEventHandle] closes the result set it opened exactly once,
    as its last call and whether or not [EvtNext] failed; when the query
    fails there is nothing to close and [EvtQuery] is its only call. *)
Theorem getTestEventHandle_closes_result_set st :
  let q := r1 (hreply st test_query) in
  let added := new_calls st (getTestEventHandle st).2 in
  added = test_query :: (if decide (q = 0) then [] else [test_next q; CallEvtClose q])
  ∧ closed_handles added = (if decide (q = 0) then [] else [q]).
Proof.
  cbv zeta. rewrite getTestEventHandle_run. cbv zeta.
  destruct (decide (r1 (hreply st test_query) = 0)) as [Hq|Hq]; simpl snd.
  - by rewrite new_calls_hafter.
  - assert (new_calls st
              (hafter (hafter (hafter st test_query)
                         (test_next (r1 (hreply st test_query))))
                 (test_close (r1 (hreply st test_query))))
            = [test_query; test_next (r1 (hreply st test_query));
               CallEvtClose (r1 (hreply st test_query))]) as Hthree
      by apply new_calls_hafter3.
    destruct (decide (r1 _ = 0)); simpl snd; by rewrite Hthree.
Qed.

(** X10: [getTestEventHandle] returns an error only when the query fails.
    When the query succeeds and [EvtNext] fails, the failure is dropped:
    the result is the zero handle with a [nil] error.  When both succeed,
    the handle is the one [EvtNext] wrote, and the outcome of [EvtClose]
    plays no part. *)
Theorem getTestEventHandle_result st :
  let q := r1 (hreply st test_query) in
  let next := hreply (hafter st test_query) (test_next q) in
  let result := (getTestEventHandle st).1 in
  (q = 0 → result = Returned (0, Some (Errno (lastErr (hreply st test_query)))))
  ∧ (q ≠ 0 → r1 next = 0 → result = Returned (0, None))
  ∧ (q ≠ 0 → r1 next ≠ 0 →
     result = Returned (default 0 (head (overlay [0] (out_data next))), None))
  ∧ (∀ handle e, result = Returned (handle, Some e) → q = 0 ∧ handle = 0).
Proof.
  cbv zeta. rewrite getTestEventHandle_run. cbv zeta.
  destruct (decide (r1 (hreply st test_query) = 0)) as [Hq|Hq].
  - split_and!; try done. by intros handle e [= <- _].
  - destruct (decide (r1 _ = 0)) as [Hn|Hn]; split_and!; try done.
Qed.

(** X11: [GetSystemRenderContext] makes one call, for the context of the
    system properties (flag 1) with no value paths, and returns a non-zero
    handle exactly when it returns no error. *)
Theorem GetSystemRenderContext_result st :
  new_calls st (GetSystemRenderContext st).2 = [CallEvtCreateRenderContext 0 0 1]
  ∧ handle_xor_error (GetSystemRenderContext st).1
  ∧ (GetSystemRenderContext st).1
      = Returned (listener_result (hreply st (CallEvtCreateRenderContext 0 0 1))).
Proof.
  unfold GetSystemRenderContext.
  rewrite (Exec_bind_returned _ _ _ _ _ (EvtCreateRenderContext_run _ _ _ _)).
  change EvtRenderContextSystem with 1.
  pose proof (listener_result_handle_xor_error
                (hreply st (CallEvtCreateRenderContext 0 0 1))) as Hx.
  unfold listener_result in *.
  destruct (decide _); simpl; (split; [apply new_calls_hafter | done]).
Qed.

(** X12: [CloseEventHandle] and [CancelEventHandle] make one call, on the
    handle they are given, and return [nil] exactly when the procedure
    returned a non-zero value; otherwise the error is the last error code,
    also when that code is 0. *)
Theorem close_and_cancel_result handle st :
  let close := CloseEventHandle handle st in
  let cancel := CancelEventHandle handle st in
  (new_calls st close.2 = [CallEvtClose handle]
   ∧ (close.1 = Returned None ↔ r1 (hreply st (CallEvtClose handle)) ≠ 0)
   ∧ (r1 (hreply st (CallEvtClose handle)) = 0 →
      close.1 = Returned (Some (Errno (lastErr (hreply st (CallEvtClose handle)))))))
  ∧ (new_calls st cancel.2 = [CallEvtCancel handle]
     ∧ (cancel.1 = Returned None ↔ r1 (hreply st (CallEvtCancel handle)) ≠ 0)
     ∧ (r1 (hreply st (CallEvtCancel handle)) = 0 →
        cancel.1
        = Returned (Some (Errno (lastErr (hreply st (CallEvtCancel handle))))))).
Proof.
  cbv zeta. unfold CloseEventHandle, CancelEventHandle.
  rewrite EvtClose_run.
  rewrite (Exec_bind_returned _ _ _ _ _ (EvtCancel_run _ _)).
  unfold wrapper_err. split.
  - destruct (decide _) as [H0|H0]; simpl;
      (split_and!; [apply new_calls_hafter | split; [done | congruence] | done]).
  - destruct (decide _) as [H0|H0]; simpl;
      (split_and!; [apply new_calls_hafter | split; [done | congruence] | done]).
Qed.

End Handles.

(** A scripted native layer for any kind of call. *)
Definition replay {E : Type} (w : list Reply) (e : E) : Reply * list Reply :=
  match w with
  | r :: w' => (r, w')
  | [] => (MkReply 0 0 None None [], [])
  end.

Example getTestEventHandle_first_event :
  getTestEventHandle replay ascii_UTF16PtrFromString
    (MkHSt [MkReply 40 0 None None []; MkReply 1 0 None (Some 1) [41];
            MkReply 1 0 None None []] [])
  = (Returned (41, None),
     MkHSt []
       [CallEvtQuery 0 (Some (ascii_units "Application" ++ [0])) (Some [42; 0]) 1;
        CallEvtNext 40 1 [0] 500 0;
        CallEvtClose 40]).
Proof. reflexivity. Qed.

Lemma getTestEventHandle_result_witness :
  (getTestEventHandle replay ascii_UTF16PtrFromString
     (MkHSt [MkReply 40 0 None None []; MkReply 0 259 None None []] [])).1
  = Returned (0, None)
  ∧ (getTestEventHandle replay ascii_UTF16PtrFromString
       (MkHSt [MkReply 0 15007 None None []] [])).1
    = Returned (0, Some (Errno 15007)).
Proof.
  split.
  - destruct (getTestEventHandle_result replay ascii_UTF16PtrFromString
                (MkHSt [MkReply 40 0 None None []; MkReply 0 259 None None []] []))
      as (_ & Hnext & _).
    apply Hnext; [discriminate | reflexivity].
  - destruct (getTestEventHandle_result replay ascii_UTF16PtrFromString
                (MkHSt [MkReply 0 15007 None None []] []))
      as (Hquery & _).
    apply Hquery. reflexivity.
Defined.

Lemma close_and_cancel_result_witness :
  (CloseEventHandle replay 40 (MkHSt [MkReply 0 0 None None []] [])).1
  = Returned (Some (Errno 0))
  ∧ (CancelEventHandle replay 40 (MkHSt [MkReply 0 6 None None []] [])).1
    = Returned (Some (Errno 6)).
Proof.
  split.
  - destruct (close_and_cancel_result replay 40 (MkHSt [MkReply 0 0 None None []] []))
      as [(_ & _ & Hclose) _].
    apply Hclose. reflexivity.
  - destruct (close_and_cancel_result replay 40 (MkHSt [MkReply 0 6 None None []] []))
      as [_ (_ & _ & Hcancel)].
    apply Hcancel. reflexivity.
Defined.

(** ** CreateMap on a pointer to nothing *)

(** X13: on a pointer that holds no event, [CreateMap] panics at the first
    field it reads: the map it had made is left empty, and no event is
    touched. *)
Theorem CreateMap_nil_receiver ev h :
  events h !! ev = None →
  CreateMap ev h =
    (Panicked "invalid memory address or nil pointer dereference",
     MkHeap (events h) (<[fresh (dom (maps h)) := ∅]> (maps h))).
Proof.
  intros He. unfold CreateMap, make_map, assign_field, load, mbind, Exec_bind.
  simpl. by rewrite He.
Qed.

Lemma CreateMap_nil_receiver_witness :
  (CreateMap 9 sample_heap).1
  = Panicked "invalid memory address or nil pointer dereference"
  ∧ events (CreateMap 9 sample_heap).2 = events sample_heap.
Proof.
  rewrite (CreateMap_nil_receiver 9 sample_heap eq_refl). split; reflexivity.
Defined.

(** ** Start-up: binding the procedures *)

(** The package variables, by name, with the procedure each is bound to
    in [init], in the order of [init]. *)
Definition bindings : list (string * string) :=
  [ ("evtCreateBookmark", "EvtCreateBookmark");
    ("evtUpdateBookmark", "EvtUpdateBookmark");
    ("evtRender", "EvtRender");
    ("evtClose", "EvtClose");
    ("evtCancel", "EvtCancel");
    ("evtFormatMessage", "EvtFormatMessage");
    ("evtCreateRenderContext", "EvtCreateRenderContext");
    ("evtSubscribe", "EvtSubscribe");
    ("evtQuery", "EvtQuery");
    ("evtOpenPublisherMetadata", "EvtOpenPublisherMetadata");
    ("evtNext", "EvtNext") ]%string.

Section Startup.

(** The lazy DLL and procedure objects of [golang.org/x/sys/windows]:
    [mod.Name], [mod.Load()], [mod.NewProc(name)] ([None] is [nil]) and
    [proc.Find()]. *)
Context {LazyDLL LazyProc : Type}.
Variable NewLazySystemDLL : string → LazyDLL.
Variable dll_Name : LazyDLL → string.
Variable Load : LazyDLL → option error.
Variable NewProc : LazyDLL → string → option LazyProc.
Variable Find : LazyProc → option error.

(** The package variables: a variable that is absent is [nil]. *)
Local Abbreviation Globals := (gmap string LazyProc).

Definition mustFindProc (mod_ : LazyDLL) (functionName : string) : Exec Globals LazyProc :=
  match Load mod_ with
  | Some _ => panic ("error loading " +:+ dll_Name mod_)
  | None =>
    match NewProc mod_ functionName with
    | None => panic ("missing " +:+ functionName +:+ " from " +:+ dll_Name mod_)
    | Some proc =>
      match Find proc with
      | Some _ => panic ("missing " +:+ functionName +:+ " from " +:+ dll_Name mod_)
      | None => mret proc
      end
    end
  end.

(** [variable = proc] *)
Definition set_global (variable : string) (proc : LazyProc) : Exec Globals unit := λ g,
  (Returned (), <[variable := proc]> g).

(** [variable = mustFindProc(mod_, functionName)] *)
Definition bind_proc (mod_ : LazyDLL) (variable functionName : string)
  : Exec Globals unit :=
  proc ← mustFindProc mod_ functionName; set_global variable proc.

Definition init : Exec Globals unit :=
  let winevtDll := NewLazySystemDLL "wevtapi.dll" in
  bind_proc winevtDll "evtCreateBookmark" "EvtCreateBookmark";;
  bind_proc winevtDll "evtUpdateBookmark" "EvtUpdateBookmark";;
  bind_proc winevtDll "evtRender" "EvtRender";;
  bind_proc winevtDll "evtClose" "EvtClose";;
  bind_proc winevtDll "evtCancel" "EvtCancel";;
  bind_proc winevtDll "evtFormatMessage" "EvtFormatMessage";;
  bind_proc winevtDll "evtCreateRenderContext" "EvtCreateRenderContext";;
  bind_proc winevtDll "evtSubscribe" "EvtSubscribe";;
  bind_proc winevtDll "evtQuery" "EvtQuery";;
  bind_proc winevtDll "evtOpenPublisherMetadata" "EvtOpenPublisherMetadata";;
  bind_proc winevtDll "evtNext" "EvtNext".

(** The procedure [mustFindProc] returns, when it returns. *)
Definition found (mod_ : LazyDLL) (functionName : string) : option LazyProc :=
  match Load mod_, NewProc mod_ functionName with
  | None, Some proc => if Find proc is None then Some proc else None
  | _, _ => None
  end.

(** The message of the panic when it does not. *)
Definition not_found_message (mod_ : LazyDLL) (functionName : string) : string :=
  if Load mod_ is Some _
  then "error loading " +:+ dll_Name mod_
  else "missing " +:+ functionName +:+ " from " +:+ dll_Name mod_.

(** A list of bindings, made in order. *)
Fixpoint bind_all (mod_ : LazyDLL) (bs : list (string * string)) : Exec Globals unit :=
  match bs with
  | [] => mret ()
  | b :: bs' =>
    match bs' with
    | [] => bind_proc mod_ b.1 b.2
    | _ :: _ => bind_proc mod_ b.1 b.2;; bind_all mod_ bs'
    end
  end.

(** The variables after the bindings [bs] were made. *)
Fixpoint bound (mod_ : LazyDLL) (bs : list (string * string)) (g : Globals) : Globals :=
  match bs with
  | [] => g
  | b :: bs' =>
    match found mod_ b.2 with
    | Some proc => bound mod_ bs' (<[b.1 := proc]> g)
    | None => g
    end
  end.

Lemma init_bind_all : init = bind_all (NewLazySystemDLL "wevtapi.dll") bindings.
Proof. reflexivity. Qed.

Lemma mustFindProc_run mod_ functionName (g : Globals) :
  mustFindProc mod_ functionName g =
    match found mod_ functionName with
    | Some proc => (Returned proc, g)
    | None => (Panicked (not_found_message mod_ functionName), g)
    end.
Proof.
  unfold mustFindProc, found, not_found_message.
  destruct (Load mod_); [done|].
  destruct (NewProc mod_ functionName) as [proc|]; [|done].
  by destruct (Find proc).
Qed.

Lemma bind_proc_run mod_ variable functionName (g : Globals) :
  bind_proc mod_ variable functionName g =
    match found mod_ functionName with
    | Some proc => (Returned (), <[variable := proc]> g)
    | None => (Panicked (not_found_message mod_ functionName), g)
    end.
Proof.
  unfold bind_proc, mbind, Exec_bind. rewrite mustFindProc_run.
  by destruct (found mod_ functionName).
Qed.

Lemma bind_all_cons mod_ b bs (g : Globals) :
  bind_all mod_ (b :: bs) g =
    match found mod_ b.2 with
    | Some proc => bind_all mod_ bs (<[b.1 := proc]> g)
    | None => (Panicked (not_found_message mod_ b.2), g)
    end.
Proof.
  destruct bs as [|b' bs]; cbn [bind_all].
  - rewrite bind_proc_run. by destruct (found mod_ b.2).
  - unfold mbind at 1, Exec_bind at 1. rewrite bind_proc_run.
    by destruct (found mod_ b.2).
Qed.

(** All found: every binding is made. *)
Lemma bind_all_found mod_ bs (g : Globals) :
  Forall (λ b, is_Some (found mod_ b.2)) bs →
  bind_all mod_ bs g = (Returned (), bound mod_ bs g).
Proof.
  intros Hall. revert g. induction Hall as [|b bs [proc Hb] _ IH]; intros g; [done|].
  rewrite bind_all_cons. cbn [bound]. rewrite Hb. apply IH.
Qed.

(** The first one missing: the bindings before it are made, then the
    panic. *)
Lemma bind_all_missing mod_ pre b post (g : Globals) :
  Forall (λ b, is_Some (found mod_ b.2)) pre →
  found mod_ b.2 = None →
  bind_all mod_ (pre ++ b :: post) g =
    (Panicked (not_found_message mod_ b.2), bound mod_ pre g).
Proof.
  intros Hall Hb. revert g. induction Hall as [|b' pre [proc Hb'] _ IH]; intros g.
  - simpl app. rewrite bind_all_cons. by rewrite Hb.
  - rewrite <- app_comm_cons. rewrite bind_all_cons. cbn [bound]. rewrite Hb'. apply IH.
Qed.

Lemma bound_lookup mod_ bs (g : Globals) variable functionName :
  Forall (λ b, is_Some (found mod_ b.2)) bs →
  NoDup bs.*1 →
  (variable, functionName) ∈ bs →
  bound mod_ bs g !! variable = found mod_ functionName.
Proof.
  intros Hall. revert g.
  induction Hall as [|b bs [proc Hb] Hall IH]; intros g Hnd Hin.
  - by apply elem_of_nil in Hin.
  - rewrite fmap_cons in Hnd. apply NoDup_cons in Hnd as [Hnotin Hnd].
    cbn [bound]. rewrite Hb.
    apply elem_of_cons in Hin as [Heq|Hin].
    + subst b. simpl in *. rewrite Hb.
      clear IH Hb. revert g. induction Hall as [|b' bs' [proc' Hb'] Hall' IH']; intros g.
      * apply lookup_insert_eq.
      * cbn [bound]. rewrite Hb'.
        rewrite fmap_cons in Hnotin, Hnd.
        apply not_elem_of_cons in Hnotin as [Hne Hnotin].
        apply NoDup_cons in Hnd as [_ Hnd].
        rewrite insert_insert_ne by done.
        apply IH'; done.
    + by apply IH.
Qed.

Lemma bound_other mod_ bs (g : Globals) variable :
  variable ∉ bs.*1 → bound mod_ bs g !! variable = g !! variable.
Proof.
  revert g. induction bs as [|b bs IH]; intros g Hnotin; [done|].
  rewrite fmap_cons in Hnotin. apply not_elem_of_cons in Hnotin as [Hne Hnotin].
  cbn [bound]. destruct (found mod_ b.2); [|done].
  rewrite IH by done. by rewrite lookup_insert_ne.
Qed.

Lemma bind_all_returned mod_ bs (g : Globals) :
  (bind_all mod_ bs g).1 = Returned () →
  Forall (λ b, is_Some (found mod_ b.2)) bs.
Proof.
  revert g. induction bs as [|b bs IH]; intros g; [by constructor|].
  rewrite bind_all_cons. destruct (found mod_ b.2) as [proc|] eqn:Hb; [|done].
  intros Hret. constructor; [by rewrite Hb | by eapply IH].
Qed.

(** X14: [init] returns exactly when wevtapi.dll loads and every one of
    the eleven procedures is found in it; each package variable is then
    bound to the procedure of its own name, and no other variable changes. *)
Theorem init_binds_every_procedure (g : Globals) :
  let winevtDll := NewLazySystemDLL "wevtapi.dll" in
  ((init g).1 = Returned () ↔
   Forall (λ b, is_Some (found winevtDll b.2)) bindings)
  ∧ ((init g).1 = Returned () →
     (∀ variable functionName,
        (variable, functionName) ∈ bindings →
        (init g).2 !! variable = found winevtDll functionName
        ∧ is_Some ((init g).2 !! variable))
     ∧ (∀ variable, variable ∉ bindings.*1 → (init g).2 !! variable = g !! variable))
  ∧ length bindings = 11%nat.
Proof.
  cbv zeta. rewrite init_bind_all.
  assert (NoDup bindings.*1) as Hnd
    by (apply (bool_decide_unpack _); vm_compute; reflexivity).
  split_and!; [split| |done].
  - apply bind_all_returned.
  - intros Hall. by rewrite bind_all_found.
  - intros Hret. apply bind_all_returned in Hret as Hall.
    rewrite bind_all_found by done. cbn [snd]. split.
    + intros variable functionName Hin.
      rewrite (bound_lookup _ _ _ _ _ Hall Hnd Hin). split; [done|].
      rewrite Forall_forall in Hall. apply (Hall _ Hin).
    + intros variable Hnotin. by apply bound_other.
Qed.

(** X15: when wevtapi.dll does not load, or lacks a procedure, [init]
    panics at the first binding that fails, in the order of the source:
    the variables before it are bound, the others are left as they were,
    and the message says that the DLL did not load, or names the procedure
    that is missing. *)
Theorem init_panics_at_first_missing (g : Globals) pre b post :
  let winevtDll := NewLazySystemDLL "wevtapi.dll" in
  bindings = pre ++ b :: post →
  Forall (λ b, is_Some (found winevtDll b.2)) pre →
  found winevtDll b.2 = None →
  init g =
    (Panicked
       (if Load winevtDll is Some _
        then "error loading " +:+ dll_Name winevtDll
        else "missing " +:+ b.2 +:+ " from " +:+ dll_Name winevtDll),
     bound winevtDll pre g)
  ∧ (∀ variable, variable ∉ pre.*1 → (init g).2 !! variable = g !! variable)
  ∧ (is_Some (Load winevtDll) → pre = []).
Proof.
  cbv zeta. intros Hsplit Hpre Hb. rewrite init_bind_all, Hsplit.
  rewrite (bind_all_missing _ _ _ _ _ Hpre Hb). fold (not_found_message (NewLazySystemDLL "wevtapi.dll") b.2).
  split_and!; [done | |].
  - intros variable Hnotin. cbn [snd]. by apply bound_other.
  - intros [e He]. destruct Hpre as [|b' pre' [proc Hb'] _]; [done|].
    unfold found in Hb'. by rewrite He in Hb'.
Qed.

End Startup.

(** A DLL given by its name and the procedures it exports, for running
    [init]. *)
Record SampleDLL : Type := MkSampleDLL {
  sample_name : string;
  sample_load : option error;
  sample_exports : list string
}.

Definition sample_NewProc (d : SampleDLL) (name : string) : option (SampleDLL * string) :=
  Some (d, name).

Definition sample_Find (proc : SampleDLL * string) : option error :=
  if bool_decide (proc.2 ∈ sample_exports proc.1)
  then None
  else Some (ErrorString "procedure not found").

(** A system whose wevtapi.dll lacks [EvtCancel]. *)
Definition old_system (name : string) : SampleDLL :=
  MkSampleDLL name None
    [ "EvtCreateBookmark"; "EvtUpdateBookmark"; "EvtRender"; "EvtClose";
      "EvtFormatMessage"; "EvtCreateRenderContext"; "EvtSubscribe"; "EvtQuery";
      "EvtOpenPublisherMetadata"; "EvtNext" ]%string.

Lemma init_panics_at_first_missing_witness :
  (init old_system sample_name sample_load sample_NewProc sample_Find ∅).1
  = Panicked "missing EvtCancel from wevtapi.dll"
  ∧ (init old_system sample_name sample_load sample_NewProc sample_Find ∅).2
      !! "evtClose"%string
    = Some (old_system "wevtapi.dll", "EvtClose"%string)
  ∧ (init old_system sample_name sample_load sample_NewProc sample_Find ∅).2
      !! "evtNext"%string = None.
Proof.
  destruct (init_panics_at_first_missing old_system sample_name sample_load
              sample_NewProc sample_Find ∅
              (take 4 bindings) ("evtCancel", "EvtCancel")%string (drop 5 bindings)
              eq_refl) as (Hrun & Hrest & _).
  - repeat constructor; by eexists.
  - reflexivity.
  - split_and!.
    + by rewrite Hrun.
    + rewrite Hrun. reflexivity.
    + rewrite Hrest; [done|]. vm_compute. intros Hin.
      repeat (apply elem_of_cons in Hin as [Hin|Hin]; [discriminate|]).
      by apply elem_of_nil in Hin.
Defined.

(** A system that has them all. *)
Definition full_system (name : string) : SampleDLL :=
  MkSampleDLL name None (bindings.*2).

Lemma init_binds_every_procedure_witness :
  (init full_system sample_name sample_load sample_NewProc sample_Find ∅).1
  = Returned ()
  ∧ (init full_system sample_name sample_load sample_NewProc sample_Find ∅).2
      !! "evtRender"%string
    = Some (full_system "wevtapi.dll", "EvtRender"%string).
Proof.
  destruct (init_binds_every_procedure full_system sample_name sample_load
              sample_NewProc sample_Find ∅) as ([_ Hret] & Hbound & _).
  assert ((init full_system sample_name sample_load sample_NewProc sample_Find ∅).1
          = Returned ()) as Hok.
  { apply Hret. repeat constructor; by eexists. }
  split; [exact Hok|].
  destruct (Hbound Hok) as [Hvars _].
  destruct (Hvars "evtRender"%string "EvtRender"%string) as [Hv _].
  - do 2 apply list_elem_of_further. apply list_elem_of_here.
  - rewrite Hv. reflexivity.
Defined.

End Winlog.
